(** * Festival scraper: crawl-and-extract pipeline of [scraper.py]

    A shallow embedding of [FestivalScraper.get_total_pages],
    [FestivalScraper.get_festival_links],
    [FestivalScraper.scrape_festival_details], [save_to_csv] and [main],
    followed by the properties of the pipeline.

    Conventions of the embedding.
    - A Python [str] is a [string]; the string methods below follow CPython
      on ASCII text (characters above 127 are neither whitespace nor cased).
    - A [BeautifulSoup] document is the record [soup] of the answers to the
      queries the scraper asks of it ([find], [find_all], [get_text]).
    - The Selenium session is a scripted [renderer]: the answer to the n-th
      [driver.get] call, given the URL asked for.
    - A Python exception is the [Raise] case of [result]. *)

From Stdlib Require Import ZArith Ascii String.
From stdpp Require Import base list strings gmap pretty.

Local Open Scope Z_scope.

(** ** Exceptions *)

Inductive exn :=
| ValueError
| IndexError
| AttributeError
| TypeError
| JSONDecodeError
| TimeoutException
| WebDriverException.

Inductive result (A : Type) :=
| Ok (a : A)
| Raise (e : exn).
Arguments Ok {A} a.
Arguments Raise {A} e.

(** ** Python string methods *)

Module Py.

Definition code (c : ascii) : N := N_of_ascii c.

(** [str.isspace] on one ASCII character: tab to carriage return, the four
    separators 0x1c-0x1f and the space. *)
Definition isspace (c : ascii) : bool :=
  let n := code c in
  ((9 <=? n) && (n <=? 13) || (28 <=? n) && (n <=? 32))%N.

Definition isdigit (c : ascii) : bool :=
  let n := code c in ((48 <=? n) && (n <=? 57))%N.

Definition isupper (c : ascii) : bool :=
  let n := code c in ((65 <=? n) && (n <=? 90))%N.

Definition islower (c : ascii) : bool :=
  let n := code c in ((97 <=? n) && (n <=? 122))%N.

Definition upper (c : ascii) : ascii :=
  if islower c then ascii_of_N (code c - 32) else c.

Definition lower (c : ascii) : ascii :=
  if isupper c then ascii_of_N (code c + 32) else c.

Definition ascii_eqb (a b : ascii) : bool := bool_decide (a = b).

Fixpoint rev_onto (acc s : string) : string :=
  match s with
  | EmptyString => acc
  | String c s' => rev_onto (String c acc) s'
  end.

Definition rev (s : string) : string := rev_onto EmptyString s.

Fixpoint drop_while (p : ascii -> bool) (s : string) : string :=
  match s with
  | EmptyString => EmptyString
  | String c s' => if p c then drop_while p s' else s
  end.

Definition strip_with (p : ascii -> bool) (s : string) : string :=
  rev (drop_while p (rev (drop_while p s))).

(** [s.strip()] *)
Definition strip (s : string) : string := strip_with isspace s.

Fixpoint mem_char (c : ascii) (chars : string) : bool :=
  match chars with
  | EmptyString => false
  | String d chars' => ascii_eqb c d || mem_char c chars'
  end.

(** [s.strip(chars)] *)
Definition strip_chars (chars s : string) : string :=
  strip_with (fun c => mem_char c chars) s.

(** [s.startswith(p)] *)
Fixpoint startswith (p s : string) : bool :=
  match p, s with
  | EmptyString, _ => true
  | String a p', String b s' => ascii_eqb a b && startswith p' s'
  | String _ _, EmptyString => false
  end.

(** [s.endswith(p)] *)
Definition endswith (p s : string) : bool := startswith (rev p) (rev s).

(** [p in s] *)
Fixpoint contains (p s : string) : bool :=
  startswith p s ||
  match s with
  | EmptyString => false
  | String _ s' => contains p s'
  end.

(** [s.split(sep)] for a non-empty [sep]: the text is cut at every
    occurrence of [sep] found scanning from the left, occurrences not
    overlapping.  [skip] counts the characters of a separator still to be
    passed over, [cur] holds the current piece backwards. *)
Fixpoint split_go (sep : string) (skip : nat) (cur : string) (s : string)
  : list string :=
  match s with
  | EmptyString => [rev cur]
  | String c s' =>
      match skip with
      | S k => split_go sep k cur s'
      | O =>
          if startswith sep s
          then rev cur :: split_go sep (Nat.pred (String.length sep)) EmptyString s'
          else split_go sep O (String c cur) s'
      end
  end.

Definition split (sep s : string) : list string :=
  split_go sep O EmptyString s.

(** [sep.join(l)] *)
Fixpoint join (sep : string) (l : list string) : string :=
  match l with
  | [] => EmptyString
  | [x] => x
  | x :: rest => x +:+ sep +:+ join sep rest
  end.

(** [s.replace(a, b)] for one-character [a] and [b]. *)
Fixpoint replace_char (a b : ascii) (s : string) : string :=
  match s with
  | EmptyString => EmptyString
  | String c s' => String (if ascii_eqb c a then b else c) (replace_char a b s')
  end.

(** [s.title()] on ASCII text: a cased character is upper-cased when it
    follows an uncased one and lower-cased otherwise.  Beyond ASCII CPython
    also cases other letters, some into more than one character; a property
    that depends on the value of [title] is stated for ASCII text. *)
Fixpoint title_go (previous_is_cased : bool) (s : string) : string :=
  match s with
  | EmptyString => EmptyString
  | String c s' =>
      if islower c then
        String (if previous_is_cased then c else upper c) (title_go true s')
      else if isupper c then
        String (if previous_is_cased then lower c else c) (title_go true s')
      else String c (title_go false s')
  end.

Definition title (s : string) : string := title_go false s.

(** [l[-2]] *)
Definition index_neg2 {A} (l : list A) : result A :=
  match (length l - 2)%nat, Nat.leb 2 (length l) with
  | i, true => match l !! i with Some x => Ok x | None => Raise IndexError end
  | _, false => Raise IndexError
  end.

(** [int(s)] in base ten: surrounding whitespace, one optional sign, then
    digits, where single underscores may stand between digits.  The
    interpreter's cap on the number of digits is not modelled. *)
Fixpoint int_digits (acc : Z) (after_digit : bool) (s : string) : option Z :=
  match s with
  | EmptyString => if after_digit then Some acc else None
  | String c s' =>
      if isdigit c then
        int_digits (10 * acc + (Z.of_N (code c) - 48)) true s'
      else if ascii_eqb c "_" then
        if after_digit then int_digits acc false s' else None
      else None
  end.

Definition int (s : string) : result Z :=
  let body (t : string) := int_digits 0 false t in
  let parsed :=
    match strip s with
    | String "-" t => Z.opp <$> body t
    | String "+" t => body t
    | t => body t
    end in
  match parsed with
  | Some n => Ok n
  | None => Raise ValueError
  end.

(** [bool(s)] for a string. *)
Definition truthy (s : string) : bool :=
  match s with EmptyString => false | _ => true end.

(** [a or b] on strings. *)
Definition or_else (a b : string) : string := if truthy a then a else b.

End Py.

(** ** Parsed documents *)

(** A tag, seen through its text: the text nodes below it, in document
    order. *)
Record element := { strings : list string }.

(** [tag.text] *)
Definition text (t : element) : string :=
  foldr String.append EmptyString (strings t).

(** [tag.get_text(strip=True)]: every text node is stripped, the empty ones
    are dropped and the rest concatenated. *)
Definition get_text_strip (t : element) : string :=
  foldr String.append EmptyString
    (List.filter Py.truthy (map Py.strip (strings t))).

(** An [<a>] tag: its [href] attribute, when it has one, and its text. *)
Record anchor := { href : option string; a_tag : element }.

(** The [div.headerblock]: its first [h1] and all its [p] tags. *)
Record header_block := { h1 : option element; p_tags : list element }.

(** The JSON-LD document as [json.loads] returns it.  The scalar members the
    scraper reads ([name], [startDate], [endDate], [addressLocality],
    [addressRegion]) are strings when present, as the event schema has
    them; a member that is absent is [None]. *)
Inductive address_value :=
| AddrDict (addressLocality addressRegion : option string)
| AddrOther.                      (* a string, a list, null, a number *)

Inductive location_value :=
| LocDict (address : option address_value)
| LocOther.                       (* anything without a [get] method *)

Record event_object := {
  ld_name : option string;
  startDate : option string;
  endDate : option string;
  ld_location : option location_value
}.

Inductive json_value :=
| JObject (o : event_object)
| JOther.                         (* a top-level list, string, number, null *)

Record soup := {
  (* soup.find('ul', class_='page-numbers'), then its
     find_all('a', class_='page-numbers') *)
  pagination : option (list element);
  (* every <a> of the document *)
  anchors : list anchor;
  (* soup.find('script', type='application/ld+json'), then the outcome of
     json.loads(script.string) *)
  ld_json : option (result json_value);
  (* soup.find('div', class_='headerblock') *)
  headerblock : option header_block;
  (* soup.find('div', class_='hublineup'), then its find_all('li') *)
  hublineup : option (list element)
}.

Definition empty_soup : soup :=
  {| pagination := None; anchors := []; ld_json := None;
     headerblock := None; hublineup := None |}.

(** ** [get_total_pages] *)

(** The loop of lines 59-64: [ValueError] is the only exception caught. *)
Fixpoint page_numbers_of (page_links : list element) : result (list Z) :=
  match page_links with
  | [] => Ok []
  | link :: rest =>
      match Py.int (Py.strip (text link)) with
      | Ok num =>
          match page_numbers_of rest with
          | Ok nums => Ok (num :: nums)
          | Raise e => Raise e
          end
      | Raise ValueError => page_numbers_of rest
      | Raise e => Raise e
      end
  end.

(** [max(l)] for a non-empty list. *)
Definition py_max (first : Z) (rest : list Z) : Z := foldl Z.max first rest.

Definition get_total_pages (s : soup) : result Z :=
  match pagination s with
  | None => Ok 1
  | Some page_links =>
      match page_numbers_of page_links with
      | Raise e => Raise e
      | Ok [] => Ok 1
      | Ok (n :: nums) => Ok (py_max n nums)
      end
  end.

Definition pager (texts : list string) : soup :=
  {| pagination := Some (map (fun t => {| strings := [t] |}) texts);
     anchors := []; ld_json := None; headerblock := None; hublineup := None |}.

(** ** The rendering session *)

(** What one [driver.get(url)] leads to: an exception somewhere between
    the request and [page_source], or a rendered document.  [marker_present]
    says whether the wait of lines 98-100 for an element matching
    [a[href*="/festivals/"]] succeeds on that rendering. *)
Inductive response :=
| FetchError (e : exn)
| Rendered (marker_present : bool) (page : soup).

(** The session, scripted: the response to the [calls]-th request, which
    may depend on the URL requested. *)
Definition renderer := nat -> string -> response.

(** ** [get_festival_links] *)

Record festival_link := { name : string; url : string }.

Global Instance festival_link_eq_dec : EqDecision festival_link.
Proof. solve_decision. Defined.

(** The two locals the page loop mutates. *)
Record crawl_state := {
  all_festivals : list festival_link;
  seen_urls : gset string
}.

Definition initial_state : crawl_state :=
  {| all_festivals := []; seen_urls := ∅ |}.

Definition site_origin : string := "https://www.musicfestivalwizard.com".

(** The [href] filter of line 103: [lambda x: x and '/festivals/' in x]. *)
Definition is_festival_href (x : option string) : bool :=
  match x with
  | Some h => Py.truthy h && Py.contains "/festivals/" h
  | None => false
  end.

Definition find_festival_links (s : soup) : list anchor :=
  List.filter (fun a => is_festival_href (href a)) (anchors s).

(** Lines 109-110. *)
Definition resolve (h : string) : string :=
  if Py.startswith "/" h then site_origin +:+ h else h.

(** Lines 114-116, the label of a link; [split('/')[-2]] may raise. *)
Definition link_name (a : anchor) (h : string) : result string :=
  let name := get_text_strip (a_tag a) in
  if negb (Py.truthy name) || (String.length name <? 3)%nat then
    match Py.index_neg2 (Py.split "/" h) with
    | Ok segment => Ok (Py.title (Py.replace_char "-" " " segment))
    | Raise e => Raise e
    end
  else Ok name.

(** One turn of the loop of lines 105-117.  The state comes back also when
    the turn raises: [seen_urls] has been added to by then. *)
Definition collect_link (st : crawl_state) (link : anchor)
  : crawl_state * result unit :=
  let h := default EmptyString (href link) in
  if negb (Py.truthy h) || Py.endswith "/festivals/" h then (st, Ok tt)
  else
    let h := resolve h in
    if bool_decide (h ∈ seen_urls st) then (st, Ok tt)
    else
      let st1 := {| all_festivals := all_festivals st;
                    seen_urls := {[ h ]} ∪ seen_urls st |} in
      match link_name link h with
      | Raise e => (st1, Raise e)
      | Ok name =>
          ({| all_festivals := all_festivals st1 ++ [ {| name := name; url := h |} ];
              seen_urls := seen_urls st1 |}, Ok tt)
      end.

Fixpoint collect_links (st : crawl_state) (festival_links : list anchor)
  : crawl_state * result unit :=
  match festival_links with
  | [] => (st, Ok tt)
  | link :: rest =>
      match collect_link st link with
      | (st', Ok _) => collect_links st' rest
      | (st', Raise e) => (st', Raise e)
      end
  end.

Definition page_url (base_url : string) (page : Z) : string :=
  if page =? 1 then base_url
  else "https://www.musicfestivalwizard.com/all-festivals/page/" +:+ pretty page
       +:+ "/?festivalgenre=electronic&ranked=yes".

(** The body of the page loop, lines 89-123: whatever is raised inside the
    [try] is caught and the loop goes on with the state as it is. *)
Definition scrape_page (r : renderer) (base_url : string)
    (acc : crawl_state * nat) (page : Z) : crawl_state * nat :=
  let '(st, calls) := acc in
  match r calls (page_url base_url page) with
  | FetchError _ => (st, S calls)
  | Rendered false _ => (st, S calls)        (* the wait timed out *)
  | Rendered true s => (fst (collect_links st (find_festival_links s)), S calls)
  end.

(** [range(1, stop)] *)
Definition range_from_1 (stop : Z) : list Z :=
  map (fun i => Z.of_nat i) (seq 1 (Z.to_nat (stop - 1))).

(** [get_festival_links(base_url, max_pages)], started when the session has
    answered [calls] requests; it gives the links (or the exception that
    escapes) and the number of requests answered afterwards. *)
Definition get_festival_links (r : renderer) (base_url : string)
    (max_pages : option Z) (calls : nat) : result (list festival_link) * nat :=
  match r calls base_url with
  | FetchError e => (Raise e, S calls)
  | Rendered _ s =>
      match get_total_pages s with
      | Raise e => (Raise e, S calls)
      | Ok total_pages =>
          let max_pages :=
            match max_pages with
            | None => total_pages
            | Some m => if m >? total_pages then total_pages else m
            end in
          let '(st, calls') :=
            foldl (scrape_page r base_url) (initial_state, S calls)
                  (range_from_1 (max_pages + 1)) in
          (Ok (all_festivals st), calls')
      end
  end.

(** ** [scrape_festival_details] *)

Record festival_data := {
  fd_name : string;
  fd_date : string;
  fd_location : string;
  fd_artists : list string
}.

Definition empty_data : festival_data :=
  {| fd_name := EmptyString; fd_date := EmptyString;
     fd_location := EmptyString; fd_artists := [] |}.

Definition set_name (v : string) (d : festival_data) : festival_data :=
  {| fd_name := v; fd_date := fd_date d;
     fd_location := fd_location d; fd_artists := fd_artists d |}.

Definition set_date (v : string) (d : festival_data) : festival_data :=
  {| fd_name := fd_name d; fd_date := v;
     fd_location := fd_location d; fd_artists := fd_artists d |}.

Definition set_location (v : string) (d : festival_data) : festival_data :=
  {| fd_name := fd_name d; fd_date := fd_date d;
     fd_location := v; fd_artists := fd_artists d |}.

Definition append_artist (v : string) (d : festival_data) : festival_data :=
  {| fd_name := fd_name d; fd_date := fd_date d;
     fd_location := fd_location d; fd_artists := fd_artists d ++ [v] |}.

(** [d.get(key, '')] for a member that is a string when present. *)
Definition get_str (member : option string) : string :=
  default EmptyString member.

(** Lines 145-150. *)
Definition structured_date (start_date end_date : string) (d : festival_data)
  : festival_data :=
  if Py.truthy start_date && Py.truthy end_date
     && negb (bool_decide (start_date = end_date))
  then set_date (start_date +:+ " - " +:+ end_date) d
  else if Py.truthy start_date then set_date start_date d
  else d.

(** Lines 143-155, the body of the inner [try]: the record as far as it was
    filled, and whether the body raised. *)
Definition json_ld_stage (d : festival_data) (loaded : result json_value)
  : festival_data * result unit :=
  match loaded with
  | Raise e => (d, Raise e)
  | Ok JOther => (d, Raise AttributeError)
  | Ok (JObject json_data) =>
      let d := set_name (get_str (ld_name json_data)) d in
      let d := structured_date (get_str (startDate json_data))
                               (get_str (endDate json_data)) d in
      match ld_location json_data with
      | Some LocOther => (d, Raise AttributeError)
      | Some (LocDict (Some AddrOther)) => (d, Ok tt)
      | Some (LocDict (Some (AddrDict locality region))) =>
          (set_location
             (Py.strip_chars ", " (get_str locality +:+ ", " +:+ get_str region)) d,
           Ok tt)
      | Some (LocDict None) | None =>
          (set_location (Py.strip_chars ", " (EmptyString +:+ ", " +:+ EmptyString)) d,
           Ok tt)
      end
  end.

(** Lines 140-157: the stage with its [except Exception: pass]. *)
Definition structured_stage (d : festival_data) (s : soup) : festival_data :=
  match ld_json s with
  | Some loaded => fst (json_ld_stage d loaded)
  | None => d
  end.

(** Lines 160-170. *)
Definition html_fallback (d : festival_data) (s : soup) : festival_data :=
  if negb (Py.truthy (fd_name d)) || negb (Py.truthy (fd_date d)) then
    match headerblock s with
    | Some header_block =>
        let d :=
          match h1 header_block with
          | Some h => set_name (get_text_strip h) d
          | None => d
          end in
        let d :=
          match p_tags header_block !! 0%nat with
          | Some p => set_date (Py.or_else (fd_date d) (get_text_strip p)) d
          | None => d
          end in
        match p_tags header_block !! 1%nat with
        | Some p => set_location (Py.or_else (fd_location d) (get_text_strip p)) d
        | None => d
        end
    | None => d
    end
  else d.

(** Lines 173-178. *)
Definition lineup (d : festival_data) (s : soup) : festival_data :=
  match hublineup s with
  | Some items =>
      foldl (fun d li =>
               let artist := get_text_strip li in
               if Py.truthy artist then append_artist artist d else d)
            d items
  | None => d
  end.

(** The three parts on a rendered document. *)
Definition extract (s : soup) : festival_data :=
  lineup (html_fallback (structured_stage empty_data s) s) s.

(** [scrape_festival_details(url)]: a request that raises gives back the
    record as it stands, which is the empty one. *)
Definition scrape_festival_details (r : renderer) (url : string) (calls : nat)
  : festival_data * nat :=
  match r calls url with
  | FetchError _ => (empty_data, S calls)
  | Rendered _ s => (extract s, S calls)
  end.

(** ** [save_to_csv] and [main] *)

(** The file, as the rows handed to [csv.DictWriter]: the header, then one
    row per record.  A reader of the file gets these rows back. *)
Definition csv_row := list string.

Definition fieldnames : csv_row := ["Festival"; "Date"; "Location"; "Artists"].

Definition row_of (fest : festival_data) : csv_row :=
  let artists_str := Py.join ", " (fd_artists fest) in
  [fd_name fest; fd_date fest; fd_location fest; artists_str].

Definition save_to_csv (festivals_data : list festival_data) : list csv_row :=
  fieldnames :: map row_of festivals_data.

(** [csv.DictReader]: the rows after the header. *)
Definition read_rows (file : list csv_row) : list csv_row := tail file.

(** The [Artists] column of a row. *)
Definition artists_field (row : csv_row) : string :=
  default EmptyString (row !! 3%nat).

Definition main_url : string :=
  "https://www.musicfestivalwizard.com/all-festivals/?festivalgenre=electronic&ranked=yes".

(** Lines 243-248. *)
Definition scrape_all (r : renderer) (festival_links : list festival_link)
    (calls : nat) : list festival_data * nat :=
  foldl (fun '(all_data, calls) fest =>
           let '(data, calls') := scrape_festival_details r (url fest) calls in
           if Py.truthy (fd_name data) then (all_data ++ [data], calls')
           else (all_data, calls'))
        ([], calls) festival_links.

(** How a run ends: an exception leaves [main] (after the [finally]), or
    [main] returns early without a file, or the file is written. *)
Inductive outcome :=
| Aborted (e : exn)
| NoFestivals
| Exported (file : list csv_row).

Definition main (r : renderer) : outcome :=
  match get_festival_links r main_url None 0 with
  | (Raise e, _) => Aborted e
  | (Ok [], _) => NoFestivals
  | (Ok festival_links, calls) =>
      Exported (save_to_csv (fst (scrape_all r festival_links calls)))
  end.

(** ** Vocabulary of the properties *)

(** The page-number link texts that parse as integers, in document order. *)
Definition numeric_tokens (page_links : list element) : list Z :=
  omap (fun link =>
          match Py.int (Py.strip (text link)) with
          | Ok num => Some num
          | Raise _ => None
          end) page_links.

Definition tokens_of (s : soup) : list Z :=
  match pagination s with
  | Some page_links => numeric_tokens page_links
  | None => []
  end.

(** What the loop body of lines 105-117 makes of one anchor that passed the
    filter of line 103: nothing when line 107 skips it, otherwise the entry
    it would append were the address not seen before. *)
Definition candidate (link : anchor) : option festival_link :=
  let h := default EmptyString (href link) in
  if negb (Py.truthy h) || Py.endswith "/festivals/" h then None
  else
    match link_name link (resolve h) with
    | Ok name => Some {| name := name; url := resolve h |}
    | Raise _ => None
    end.

Definition page_candidates (s : soup) : list festival_link :=
  omap candidate (find_festival_links s).

(** Lines 111-113 and 117 on an entry: the merge step of the crawl state. *)
Definition merge (st : crawl_state) (e : festival_link) : crawl_state :=
  if bool_decide (url e ∈ seen_urls st) then st
  else {| all_festivals := all_festivals st ++ [e];
          seen_urls := {[ url e ]} ∪ seen_urls st |}.

(** The entries of a sequence whose address is neither in [seen] nor
    carried by an earlier entry. *)
Fixpoint first_occurrences (seen : gset string) (l : list festival_link)
  : list festival_link :=
  match l with
  | [] => []
  | e :: rest =>
      if bool_decide (url e ∈ seen) then first_occurrences seen rest
      else e :: first_occurrences ({[ url e ]} ∪ seen) rest
  end.

(** The documents the page loop gets to read: the pages, in order, whose
    request and wait both succeed; the n-th page of the loop is answered by
    the session's request number [calls + n]. *)
Fixpoint crawled (r : renderer) (base_url : string) (calls : nat)
    (pages : list Z) : list soup :=
  match pages with
  | [] => []
  | page :: rest =>
      match r calls (page_url base_url page) with
      | Rendered true s => s :: crawled r base_url (S calls) rest
      | _ => crawled r base_url (S calls) rest
      end
  end.

(** Lines 82-83. *)
Definition page_bound (max_pages : option Z) (total_pages : Z) : Z :=
  match max_pages with
  | None => total_pages
  | Some m => if m >? total_pages then total_pages else m
  end.

(** All candidate entries of a crawl, in the order the loop meets them. *)
Definition crawl_candidates (r : renderer) (base_url : string)
    (max_pages : option Z) (calls : nat) : list festival_link :=
  match r calls base_url with
  | Rendered _ s =>
      match get_total_pages s with
      | Ok total_pages =>
          concat (map page_candidates
                    (crawled r base_url (S calls)
                       (range_from_1 (page_bound max_pages total_pages + 1))))
      | Raise _ => []
      end
  | FetchError _ => []
  end.

(** An address with a scheme. *)
Definition is_absolute (u : string) : bool :=
  Py.startswith "http://" u || Py.startswith "https://" u.

(** The listing root of the detail-page segment, as a path or in full. *)
Definition is_listing_root (h : string) : Prop :=
  h = "/festivals/" \/ h = site_origin +:+ "/festivals/".

(** The label the URL gives when read as "last non-empty path segment,
    hyphens to spaces, title-cased". *)
Definition last_segment_label (u : string) : string :=
  Py.title (Py.replace_char "-" " "
    (default EmptyString (last (List.filter Py.truthy (Py.split "/" u))))).

(** ** Building blocks of the examples *)

(** A session that serves the given documents one request after the other,
    whatever the URL, and fails once they are used up. *)
Definition serve (pages : list response) : renderer :=
  fun calls _ => default (FetchError WebDriverException) (pages !! calls).

Definition listing (links : list anchor) : soup :=
  {| pagination := None; anchors := links; ld_json := None;
     headerblock := None; hublineup := None |}.

Definition link_to (h : string) (label : string) : anchor :=
  {| href := Some h; a_tag := {| strings := [label] |} |}.

(** ** Listing pages used as examples *)

(** A listing of two pages: the first links to two festivals (one of them
    twice) and to the listing root, the second repeats one festival and
    adds a third whose anchor has no text. *)
Definition first_listing : soup :=
  {| pagination :=
       Some [ {| strings := ["1"] |}; {| strings := ["2"] |};
              {| strings := ["Next"] |} ];
     anchors :=
       [ link_to "/festivals/" "All festivals";
         link_to "/festivals/coachella/" "Coachella";
         link_to "https://www.musicfestivalwizard.com/festivals/coachella/" "Tickets";
         link_to "/festivals/big-day-out/" "Big Day Out";
         {| href := None; a_tag := {| strings := ["Top"] |} |} ];
     ld_json := None; headerblock := None; hublineup := None |}.

Definition second_listing : soup :=
  {| pagination := None;
     anchors :=
       [ link_to "/festivals/big-day-out/" "Big Day Out again";
         link_to "/festivals/sonar-2026/" "" ];
     ld_json := None; headerblock := None; hublineup := None |}.

Definition two_pages : renderer :=
  serve [ Rendered true first_listing; Rendered true first_listing;
          Rendered true second_listing ].

Definition two_pages_links : list festival_link :=
  [ {| name := "Coachella";
       url := "https://www.musicfestivalwizard.com/festivals/coachella/" |};
    {| name := "Big Day Out";
       url := "https://www.musicfestivalwizard.com/festivals/big-day-out/" |};
    {| name := "Sonar 2026";
       url := "https://www.musicfestivalwizard.com/festivals/sonar-2026/" |} ].

(** One listing page whose only link is relative to the page. *)
Definition relative_link_page : renderer :=
  serve [ Rendered true (listing [link_to "../festivals/coachella/" "Coachella"]);
          Rendered true (listing [link_to "../festivals/coachella/" "Coachella"]) ].

(** ** Detail pages used as examples *)

(** Structured data only. *)
Definition test_fest : soup :=
  {| pagination := None; anchors := [];
     ld_json := Some (Ok (JObject
       {| ld_name := Some "Test Fest";
          startDate := Some "2026-06-01"; endDate := Some "2026-06-03";
          ld_location := Some (LocDict (Some (AddrDict (Some "Austin") (Some "TX")))) |}));
     headerblock := None; hublineup := None |}.

(** Structured data with an end date and no start date. *)
Definition end_only : soup :=
  {| pagination := None; anchors := [];
     ld_json := Some (Ok (JObject
       {| ld_name := Some "Test Fest";
          startDate := None; endDate := Some "2026-06-03";
          ld_location := None |}));
     headerblock := None; hublineup := None |}.

(** Structured data that gives name and date but no address, and a header
    block with a heading and two paragraphs. *)
Definition no_address : soup :=
  {| pagination := None; anchors := [];
     ld_json := Some (Ok (JObject
       {| ld_name := Some "Test Fest";
          startDate := Some "2026-06-01"; endDate := Some "2026-06-03";
          ld_location := None |}));
     headerblock := Some
       {| h1 := Some {| strings := ["Test Fest"] |};
          p_tags := [ {| strings := ["June 1-3, 2026"] |};
                      {| strings := ["Austin, TX"] |} ] |};
     hublineup := None |}.

(** Structured data that gives the name only, and a header block with a
    heading and no paragraph. *)
Definition name_only : soup :=
  {| pagination := None; anchors := [];
     ld_json := Some (Ok (JObject
       {| ld_name := Some "Test Fest"; startDate := None; endDate := None;
          ld_location := None |}));
     headerblock := Some
       {| h1 := Some {| strings := ["TEST FEST 2026 | Tickets"] |};
          p_tags := [] |};
     hublineup := None |}.

(** ** Sessions used as examples *)

(** The page-count request succeeds and every later request fails. *)
Definition only_first_answer : renderer := serve [ Rendered true first_listing ].

(** Every request fails. *)
Definition no_answer : renderer := serve [].

(** The two listing pages, then the three detail pages: the first and the
    third are served, the second fails. *)
Definition whole_run : renderer :=
  serve [ Rendered true first_listing; Rendered true first_listing;
          Rendered true second_listing;
          Rendered false test_fest; FetchError TimeoutException;
          Rendered false name_only ].

(** A detail page whose lineup has an artist with a comma in the name. *)
Definition comma_lineup : soup :=
  {| pagination := None; anchors := []; ld_json := None;
     headerblock := Some
       {| h1 := Some {| strings := ["Camp Flog Gnaw"] |}; p_tags := [] |};
     hublineup := Some [ {| strings := ["Tyler, The Creator"] |};
                         {| strings := [" Kali Uchis "] |} ] |}.

(** ** [get_unique_filename] *)

(** The first name tried, line 196. *)
Definition csv_name (base_name date_str : string) : string :=
  base_name +:+ " " +:+ date_str +:+ ".csv".

(** The name tried for a counter, line 200. *)
Definition numbered_name (base_name date_str : string) (counter : Z) : string :=
  base_name +:+ " " +:+ date_str +:+ " (" +:+ pretty counter +:+ ").csv".

(** The [while] loop of lines 198-200.  [existing] is the set of paths for
    which [os.path.exists] answers true; [fuel] bounds the number of
    tests. *)
Fixpoint unique_filename_loop (existing : gset string)
    (base_name date_str : string) (fuel : nat) (counter : Z)
    (filename : string) : option string :=
  match fuel with
  | O => None
  | S fuel' =>
      if bool_decide (filename ∈ existing) then
        let counter := counter + 1 in
        unique_filename_loop existing base_name date_str fuel' counter
          (numbered_name base_name date_str counter)
      else Some filename
  end.

(** [get_unique_filename(base_name)], with [date_str] what
    [datetime.now().strftime("%m-%d-%Y")] gives. *)
Definition get_unique_filename (existing : gset string) (date_str : string)
    (base_name : string) (fuel : nat) : option string :=
  unique_filename_loop existing base_name date_str fuel 1
    (csv_name base_name date_str).

(** A directory in which the first two names of a day are taken. *)
Definition two_exports : gset string :=
  {[ "Festival Output 11-04-2026.csv"; "Festival Output 11-04-2026 (2).csv" ]}.

(** ** More vocabulary *)

(** The first character of a string, when it has one, is not in the class
    [p]. *)
Definition head_clean (p : ascii -> bool) (s : string) : Prop :=
  match s with
  | EmptyString => True
  | String c _ => p c = false
  end.

(** Every character of a string is in the class [p]. *)
Fixpoint all_chars (p : ascii -> bool) (s : string) : bool :=
  match s with
  | EmptyString => true
  | String c s' => p c && all_chars p s'
  end.

(** A lineup page: the container holds blank and padded entries. *)
Definition padded_lineup : soup :=
  {| pagination := None; anchors := []; ld_json := None; headerblock := None;
     hublineup := Some [ {| strings := ["  Bicep "; " (live)"] |};
                         {| strings := ["   "] |};
                         {| strings := [] |};
                         {| strings := ["Four Tet"] |} ] |}.

(** A structured-data block whose address has a locality and no region. *)
Definition locality_only : event_object :=
  {| ld_name := Some "Test Fest"; startDate := None; endDate := None;
     ld_location := Some (LocDict (Some (AddrDict (Some "Austin") None))) |}.

(** The set of seen addresses is the set of the addresses collected. *)
Definition seen_matches (st : crawl_state) : Prop :=
  forall u, u ∈ seen_urls st <-> u ∈ map url (all_festivals st).

(** The records of the detail pages of the links, in link order: the n-th
    link is answered by the session's request number [calls + n]. *)
Fixpoint detail_results (r : renderer) (festival_links : list festival_link)
    (calls : nat) : list festival_data :=
  match festival_links with
  | [] => []
  | fest :: rest =>
      (scrape_festival_details r (url fest) calls).1
        :: detail_results r rest (S calls)
  end.

(** [bool(f['artists'])] *)
Definition has_artists (f : festival_data) : bool :=
  match fd_artists f with
  | [] => false
  | _ :: _ => true
  end.

(** The three counts of the summary, lines 256-258. *)
Record summary := {
  total_scraped : nat;
  with_lineups : nat;
  total_artists : nat
}.

Definition summarize (all_data : list festival_data) : summary :=
  {| total_scraped := length all_data;
     with_lineups := length (List.filter has_artists all_data);
     total_artists := sum_list (map (fun f => length (fd_artists f)) all_data) |}.

(** A header block only. *)
Definition header_only : soup :=
  {| pagination := None; anchors := []; ld_json := None;
     headerblock := Some
       {| h1 := Some {| strings := [" Sonar "] |};
          p_tags := [ {| strings := ["June 18-20, 2026"] |};
                      {| strings := ["Barcelona, Spain"] |} ] |};
     hublineup := None |}.

(** The documents the page loop of a crawl reads, in order. *)
Definition crawl_documents (r : renderer) (base_url : string)
    (max_pages : option Z) (calls : nat) : list soup :=
  match r calls base_url with
  | Rendered _ s =>
      match get_total_pages s with
      | Ok total_pages =>
          crawled r base_url (S calls)
            (range_from_1 (page_bound max_pages total_pages + 1))
      | Raise _ => []
      end
  | FetchError _ => []
  end.

(** [s.isascii()] *)
Definition isascii (s : string) : bool :=
  all_chars (fun c => (Py.code c <? 128)%N) s.

(** * Properties *)

(** ** The string methods and the page count on examples *)

Example strip_ex : Py.strip "  12 " = "12".
Proof. reflexivity. Qed.

Example int_ex :
  Py.int " 12" = Ok 12 /\ Py.int "-3" = Ok (-3) /\ Py.int "1_000" = Ok 1000
  /\ Py.int "next" = Raise ValueError /\ Py.int "" = Raise ValueError
  /\ Py.int "1__0" = Raise ValueError /\ Py.int "+" = Raise ValueError.
Proof. repeat split; reflexivity. Qed.

Example split_ex :
  Py.split "/" "https://x.org/festivals/big-day/" =
    ["https:"; ""; "x.org"; "festivals"; "big-day"; ""]
  /\ Py.split ", " "a, b,, c" = ["a"; "b,"; "c"]
  /\ Py.split ", " "" = [""].
Proof. repeat split; reflexivity. Qed.

Example title_ex :
  Py.title "big day-out 2nd eDITION" = "Big Day-Out 2Nd Edition".
Proof. reflexivity. Qed.

Example strip_chars_ex :
  Py.strip_chars ", " "Austin, " = "Austin" /\ Py.strip_chars ", " ", " = "".
Proof. split; reflexivity. Qed.

Example get_total_pages_ex :
  get_total_pages (pager ["1"; " 2 "; "17"; "Next"]) = Ok 17
  /\ get_total_pages (pager ["Next"]) = Ok 1
  /\ get_total_pages empty_soup = Ok 1.
Proof. repeat split; reflexivity. Qed.

(** ** C4: the page count *)

Lemma int_raises_value_error (s : string) (e : exn) :
  Py.int s = Raise e -> e = ValueError.
Proof.
  unfold Py.int.
  destruct (match Py.strip s with
            | String "-" t => Z.opp <$> Py.int_digits 0 false t
            | String "+" t => Py.int_digits 0 false t
            | t => Py.int_digits 0 false t
            end); intros H; inversion H; reflexivity.
Qed.

Lemma page_numbers_of_tokens (page_links : list element) :
  page_numbers_of page_links = Ok (numeric_tokens page_links).
Proof.
  induction page_links as [|link rest IH]; [reflexivity|].
  unfold numeric_tokens in *. cbn [page_numbers_of omap list_omap].
  destruct (Py.int (Py.strip (text link))) as [num|e] eqn:E.
  - now rewrite IH.
  - apply int_raises_value_error in E. subst e. exact IH.
Qed.

Lemma py_max_upper (l : list Z) (a m : Z) :
  m ∈ a :: l -> m <= py_max a l.
Proof.
  unfold py_max. revert a m.
  induction l as [|b l IH]; intros a m Hm; cbn [foldl].
  - apply list_elem_of_singleton in Hm. lia.
  - apply elem_of_cons in Hm as [->|Hm].
    + transitivity (Z.max a b); [lia|]. apply IH. left.
    + apply elem_of_cons in Hm as [->|Hm].
      * transitivity (Z.max a b); [lia|]. apply IH. left.
      * apply IH. now right.
Qed.

Lemma py_max_elem (l : list Z) (a : Z) : py_max a l ∈ a :: l.
Proof.
  unfold py_max. revert a.
  induction l as [|b l IH]; intros a; cbn [foldl]; [left|].
  specialize (IH (Z.max a b)). apply elem_of_cons in IH as [E|IH].
  - rewrite E. destruct (Z.max_spec a b) as [[_ ->]|[_ ->]];
      [right; left | left].
  - right. now right.
Qed.

Lemma get_total_pages_eq (s : soup) :
  get_total_pages s =
    Ok (match tokens_of s with [] => 1 | n :: nums => py_max n nums end).
Proof.
  unfold get_total_pages, tokens_of.
  destruct (pagination s) as [page_links|]; [|reflexivity].
  rewrite page_numbers_of_tokens.
  now destruct (numeric_tokens page_links).
Qed.

(** C4, as amended: for every listing-page document [get_total_pages]
    returns an integer and does not raise.  Without a pagination control,
    or when no link text parses as an integer, the integer is 1; otherwise
    it is the greatest of the parsed integers, the texts that do not parse
    being skipped.  It is at least 1 as soon as one parsed integer is. *)
Theorem get_total_pages_max (s : soup) :
  exists n : Z,
    get_total_pages s = Ok n
    /\ (pagination s = None -> n = 1)
    /\ (tokens_of s = [] -> n = 1)
    /\ (tokens_of s <> [] ->
        n ∈ tokens_of s /\ forall m, m ∈ tokens_of s -> m <= n)
    /\ ((exists m, m ∈ tokens_of s /\ 1 <= m) -> 1 <= n).
Proof.
  rewrite get_total_pages_eq.
  destruct (tokens_of s) as [|a l] eqn:E.
  - exists 1. repeat split; try congruence.
    + intros (m & Hm & _). inversion Hm.
  - exists (py_max a l). split; [reflexivity|]. split.
    + intros Hp. unfold tokens_of in E. now rewrite Hp in E.
    + split; [discriminate|]. split.
      * intros _. split; [apply py_max_elem | apply py_max_upper].
      * intros (m & Hm & H1). pose proof (py_max_upper l a m Hm). lia.
Qed.

(** C4 as stated fails: a pagination control whose only page link reads
    "0" gives 0 pages. *)
Lemma get_total_pages_below_one :
  get_total_pages (pager ["0"]) = Ok 0
  /\ ~ (exists n : Z, get_total_pages (pager ["0"]) = Ok n /\ 1 <= n).
Proof.
  split; [reflexivity|].
  intros (n & H & Hn). vm_compute in H. inversion H. subst n. lia.
Qed.

(** ** The detail extractor: what each part leaves alone *)

Lemma truthy_false (s : string) : Py.truthy s = false <-> s = EmptyString.
Proof. destruct s; cbn; split; congruence. Qed.

Lemma truthy_true (s : string) : Py.truthy s = true <-> s <> EmptyString.
Proof. destruct s; cbn; split; congruence. Qed.

Lemma or_else_empty (b : string) : Py.or_else EmptyString b = b.
Proof. reflexivity. Qed.

Lemma or_else_filled (a b : string) : a <> EmptyString -> Py.or_else a b = a.
Proof. intros H. unfold Py.or_else. now apply truthy_true in H as ->. Qed.

Lemma lineup_keeps (d : festival_data) (s : soup) :
  fd_name (lineup d s) = fd_name d
  /\ fd_date (lineup d s) = fd_date d
  /\ fd_location (lineup d s) = fd_location d.
Proof.
  unfold lineup. destruct (hublineup s) as [items|]; [|easy].
  revert d. induction items as [|li items IH]; intros d; [easy|].
  cbn [foldl].
  destruct (Py.truthy (get_text_strip li)); [|apply IH].
  destruct (IH (append_artist (get_text_strip li) d)) as (-> & -> & ->).
  easy.
Qed.

Lemma json_ld_stage_date (d : festival_data) (o : event_object) :
  fd_date (fst (json_ld_stage d (Ok (JObject o)))) =
  fd_date (structured_date (get_str (startDate o)) (get_str (endDate o)) d).
Proof.
  cbn [json_ld_stage].
  assert (E : forall a b n,
             fd_date (structured_date a b (set_name n d)) =
             fd_date (structured_date a b d)).
  { intros a b n. unfold structured_date.
    destruct (Py.truthy a && Py.truthy b && negb (bool_decide (a = b)));
      [reflexivity|].
    destruct (Py.truthy a); reflexivity. }
  destruct (ld_location o) as [[[[locality region|]|]|]|]; cbn; apply E.
Qed.

Lemma html_fallback_date_kept (d : festival_data) (s : soup) :
  fd_date d <> EmptyString -> fd_date (html_fallback d s) = fd_date d.
Proof.
  intros H. unfold html_fallback.
  destruct (negb (Py.truthy (fd_name d)) || negb (Py.truthy (fd_date d)));
    [|reflexivity].
  destruct (headerblock s) as [hb|]; [|reflexivity].
  destruct (h1 hb), (p_tags hb !! 0%nat), (p_tags hb !! 1%nat); cbn;
    rewrite ?or_else_filled; auto.
Qed.

Lemma html_fallback_location_kept (d : festival_data) (s : soup) :
  fd_location d <> EmptyString ->
  fd_location (html_fallback d s) = fd_location d.
Proof.
  intros H. unfold html_fallback.
  destruct (negb (Py.truthy (fd_name d)) || negb (Py.truthy (fd_date d)));
    [|reflexivity].
  destruct (headerblock s) as [hb|]; [|reflexivity].
  destruct (h1 hb), (p_tags hb !! 0%nat), (p_tags hb !! 1%nat); cbn;
    rewrite ?or_else_filled; auto.
Qed.

(** ** C5: the date of the structured stage *)

(** C5: for a structured-data block that parses to an object, with [start]
    and [stop] the values read for [startDate] and [endDate] (the empty
    string when the member is missing): when both are there and differ the
    date is "start - stop"; when they are equal the date is that single
    string; when only [start] is there the date is [start].  A date the
    structured stage has set is the date of the final record. *)
Theorem structured_date_cases (s : soup) (o : event_object) :
  ld_json s = Some (Ok (JObject o)) ->
  let start := get_str (startDate o) in
  let stop := get_str (endDate o) in
  let d := structured_stage empty_data s in
  (start <> EmptyString -> stop <> EmptyString -> start <> stop ->
   fd_date d = start +:+ " - " +:+ stop)
  /\ (start = stop -> fd_date d = start)
  /\ (start <> EmptyString -> stop = EmptyString -> fd_date d = start)
  /\ (fd_date d <> EmptyString -> fd_date (extract s) = fd_date d).
Proof.
  intros Hs start stop d.
  assert (Hd : fd_date d = fd_date (structured_date start stop empty_data)).
  { unfold d, structured_stage. rewrite Hs. apply json_ld_stage_date. }
  repeat split.
  - intros H1 H2 H3. rewrite Hd. unfold structured_date.
    apply truthy_true in H1 as ->. apply truthy_true in H2 as ->.
    now rewrite bool_decide_eq_false_2.
  - intros E. rewrite Hd. unfold structured_date. rewrite <- E.
    rewrite bool_decide_eq_true_2 by reflexivity.
    rewrite andb_false_r.
    destruct (Py.truthy start) eqn:T; [reflexivity|].
    apply truthy_false in T. now rewrite T.
  - intros H1 H2. rewrite Hd. unfold structured_date. rewrite H2.
    apply truthy_true in H1 as ->. reflexivity.
  - intros H. unfold extract. fold d.
    destruct (lineup_keeps (html_fallback d s) s) as (_ & -> & _).
    now apply html_fallback_date_kept.
Qed.

Example extract_test_fest :
  extract test_fest =
    {| fd_name := "Test Fest"; fd_date := "2026-06-01 - 2026-06-03";
       fd_location := "Austin, TX"; fd_artists := [] |}.
Proof. reflexivity. Qed.

Lemma structured_date_cases_witness :
  fd_date (structured_stage empty_data test_fest) = "2026-06-01 - 2026-06-03".
Proof.
  refine (proj1 (structured_date_cases test_fest _ eq_refl) _ _ _);
    cbn; discriminate.
Defined.

(** A member that is there with the empty string reads like a missing one:
    [.get(key, '')] gives the same value for both. *)
Example empty_end_date_reads_as_missing (d : festival_data) :
  fd_date (structured_date "2026-06-01" (get_str (Some EmptyString)) d)
  = "2026-06-01"
  /\ fd_date (structured_date "2026-06-01" (get_str None) d) = "2026-06-01".
Proof. split; reflexivity. Qed.

(** ** C10: an end date without a start date *)

(** C10: when the structured-data block has an [endDate] and its
    [startDate] is missing or empty, the structured stage leaves the date
    empty, and the date of the final record is the one the header block
    gives (its first paragraph, or nothing): the end date is not used. *)
Theorem end_date_alone_unused (s : soup) (o : event_object) (stop : string) :
  ld_json s = Some (Ok (JObject o)) ->
  endDate o = Some stop ->
  get_str (startDate o) = EmptyString ->
  fd_date (structured_stage empty_data s) = EmptyString
  /\ fd_date (extract s) =
       match headerblock s with
       | Some hb =>
           match p_tags hb !! 0%nat with
           | Some p => get_text_strip p
           | None => EmptyString
           end
       | None => EmptyString
       end.
Proof.
  intros Hs _ Hstart.
  assert (Hd : fd_date (structured_stage empty_data s) = EmptyString).
  { unfold structured_stage. rewrite Hs, json_ld_stage_date, Hstart.
    reflexivity. }
  split; [exact Hd|].
  unfold extract.
  destruct (lineup_keeps (html_fallback (structured_stage empty_data s) s) s)
    as (_ & -> & _).
  unfold html_fallback. rewrite Hd. cbn [Py.truthy negb]. rewrite orb_true_r.
  destruct (headerblock s) as [hb|]; [|exact Hd].
  destruct (h1 hb), (p_tags hb !! 0%nat), (p_tags hb !! 1%nat); cbn;
    rewrite ?Hd; reflexivity.
Qed.

Lemma end_date_alone_unused_witness :
  fd_date (structured_stage empty_data end_only) = EmptyString
  /\ fd_date (extract end_only) = EmptyString.
Proof.
  exact (end_date_alone_unused end_only _ "2026-06-03" eq_refl eq_refl eq_refl).
Defined.

(** ** C1: the HTML fallback *)

Lemma html_fallback_skipped (d : festival_data) (s : soup) :
  fd_name d <> EmptyString -> fd_date d <> EmptyString ->
  html_fallback d s = d.
Proof.
  intros Hn Hd. unfold html_fallback.
  apply truthy_true in Hn as ->. apply truthy_true in Hd as ->. reflexivity.
Qed.

Lemma html_fallback_no_header (d : festival_data) (s : soup) :
  headerblock s = None -> html_fallback d s = d.
Proof.
  intros H. unfold html_fallback. rewrite H. now destruct (_ || _).
Qed.

(** When the fallback runs on a header block, field by field. *)
Lemma html_fallback_runs (d : festival_data) (s : soup) (hb : header_block) :
  fd_name d = EmptyString \/ fd_date d = EmptyString ->
  headerblock s = Some hb ->
  fd_name (html_fallback d s) =
    match h1 hb with Some h => get_text_strip h | None => fd_name d end
  /\ fd_date (html_fallback d s) =
    match p_tags hb !! 0%nat with
    | Some p => Py.or_else (fd_date d) (get_text_strip p)
    | None => fd_date d
    end
  /\ fd_location (html_fallback d s) =
    match p_tags hb !! 1%nat with
    | Some p => Py.or_else (fd_location d) (get_text_strip p)
    | None => fd_location d
    end.
Proof.
  intros Hrun Hhb. unfold html_fallback. rewrite Hhb.
  assert (negb (Py.truthy (fd_name d)) || negb (Py.truthy (fd_date d)) = true)
    as ->.
  { destruct Hrun as [-> | ->]; cbn; [reflexivity | apply orb_true_r]. }
  destruct (h1 hb), (p_tags hb !! 0%nat), (p_tags hb !! 1%nat); easy.
Qed.

(** C1, as amended: the fallback runs only when the name or the date is
    still empty after the structured stage.  When it runs on a header
    block, the date is taken from the first paragraph exactly when the
    date was empty, the location from the second paragraph exactly when
    the location was empty, and an empty name is taken from the first
    heading.  A date or a location that is filled is never overwritten.
    When name and date are both filled, or there is no header block, the
    fallback changes nothing. *)
Theorem html_fallback_fills_empty (d : festival_data) (s : soup) :
  (fd_name d <> EmptyString -> fd_date d <> EmptyString ->
   html_fallback d s = d)
  /\ (headerblock s = None -> html_fallback d s = d)
  /\ (fd_date d <> EmptyString -> fd_date (html_fallback d s) = fd_date d)
  /\ (fd_location d <> EmptyString ->
      fd_location (html_fallback d s) = fd_location d)
  /\ (forall hb, headerblock s = Some hb ->
      fd_name d = EmptyString \/ fd_date d = EmptyString ->
      (forall h, fd_name d = EmptyString -> h1 hb = Some h ->
                 fd_name (html_fallback d s) = get_text_strip h)
      /\ (forall p, fd_date d = EmptyString -> p_tags hb !! 0%nat = Some p ->
                    fd_date (html_fallback d s) = get_text_strip p)
      /\ (forall p, fd_location d = EmptyString ->
                    p_tags hb !! 1%nat = Some p ->
                    fd_location (html_fallback d s) = get_text_strip p)
      /\ (h1 hb = None -> fd_name (html_fallback d s) = fd_name d)
      /\ (p_tags hb !! 0%nat = None ->
          fd_date (html_fallback d s) = fd_date d)
      /\ (p_tags hb !! 1%nat = None ->
          fd_location (html_fallback d s) = fd_location d)).
Proof.
  split; [apply html_fallback_skipped|].
  split; [apply html_fallback_no_header|].
  split; [apply html_fallback_date_kept|].
  split; [apply html_fallback_location_kept|].
  intros hb Hhb Hrun.
  destruct (html_fallback_runs d s hb Hrun Hhb) as (En & Ed & El).
  rewrite En, Ed, El. repeat split.
  - now intros h _ ->.
  - now intros p -> ->.
  - now intros p -> ->.
  - now intros ->.
  - now intros ->.
  - now intros ->.
Qed.

(** C1 as stated fails: the structured stage leaves the location empty, the
    header block has a second paragraph, and the location stays empty. *)
Lemma fallback_leaves_location_empty :
  fd_location (structured_stage empty_data no_address) = EmptyString
  /\ (exists hb p,
        headerblock no_address = Some hb /\ p_tags hb !! 1%nat = Some p
        /\ get_text_strip p = "Austin, TX")
  /\ fd_location (html_fallback (structured_stage empty_data no_address)
                                no_address) = EmptyString
  /\ fd_location (extract no_address) <> "Austin, TX".
Proof.
  split; [reflexivity|]. split.
  - eexists _, _. repeat split; reflexivity.
  - split; [reflexivity|]. vm_compute. discriminate.
Qed.

(** The other way the two stages differ from "fill only what is empty":
    a name from the structured data is replaced by the heading when the
    date is what was missing. *)
Example heading_replaces_name :
  fd_name (structured_stage empty_data name_only) = "Test Fest"
  /\ fd_name (extract name_only) = "TEST FEST 2026 | Tickets".
Proof. split; reflexivity. Qed.

(** ** Facts about the string methods *)

Section StringFacts.

Local Notation "a ++s b" := (String.append a b)
  (at level 60, right associativity).

Lemma append_cons (c : ascii) (a b : string) :
  String c a ++s b = String c (a ++s b).
Proof. reflexivity. Qed.

Lemma append_empty_l (s : string) : EmptyString ++s s = s.
Proof. reflexivity. Qed.

Lemma append_empty_r (s : string) : s ++s EmptyString = s.
Proof.
  induction s as [|c s IH]; [reflexivity | now rewrite append_cons, IH].
Qed.

Lemma append_assoc (a b c : string) : (a ++s b) ++s c = a ++s b ++s c.
Proof.
  induction a as [|x a IH]; [reflexivity | now rewrite !append_cons, IH].
Qed.

Lemma rev_onto_append (s acc : string) :
  Py.rev_onto acc s = Py.rev s ++s acc.
Proof.
  unfold Py.rev. revert acc.
  induction s as [|c s IH]; intros acc; cbn; [reflexivity|].
  rewrite (IH (String c acc)), (IH (String c EmptyString)).
  now rewrite append_assoc.
Qed.

Lemma rev_cons (c : ascii) (s : string) :
  Py.rev (String c s) = Py.rev s ++s String c EmptyString.
Proof. unfold Py.rev at 1. cbn. apply rev_onto_append. Qed.

Lemma rev_append (a b : string) : Py.rev (a ++s b) = Py.rev b ++s Py.rev a.
Proof.
  induction a as [|c a IH].
  - rewrite append_empty_l. change (Py.rev EmptyString) with EmptyString.
    now rewrite append_empty_r.
  - now rewrite append_cons, !rev_cons, IH, append_assoc.
Qed.

Lemma rev_involutive (s : string) : Py.rev (Py.rev s) = s.
Proof.
  induction s as [|c s IH]; [reflexivity|].
  now rewrite rev_cons, rev_append, IH.
Qed.

Lemma startswith_spec (p s : string) :
  Py.startswith p s = true <-> exists t, s = p ++s t.
Proof.
  revert s. induction p as [|a p IH]; intros s; cbn.
  - split; [intros _; now exists s | reflexivity].
  - destruct s as [|b s].
    + split; [discriminate | intros (t & Ht); discriminate].
    + unfold Py.ascii_eqb. rewrite andb_true_iff, bool_decide_eq_true, IH.
      split.
      * intros (-> & t & ->). now exists t.
      * intros (t & Ht). inversion Ht. split; [reflexivity | now exists t].
Qed.

Lemma endswith_spec (p s : string) :
  Py.endswith p s = true <-> exists t, s = t ++s p.
Proof.
  unfold Py.endswith. rewrite startswith_spec. split.
  - intros (t & Ht). exists (Py.rev t).
    rewrite <- (rev_involutive s), Ht, rev_append.
    now rewrite rev_involutive.
  - intros (t & ->). exists (Py.rev t). apply rev_append.
Qed.

Lemma contains_spec (p s : string) :
  Py.contains p s = true <-> exists a b, s = a ++s p ++s b.
Proof.
  induction s as [|c s IH].
  - cbn [Py.contains]. rewrite orb_false_r, startswith_spec. split.
    + intros (t & Ht). now exists EmptyString, t.
    + intros (a & b & H). destruct a; [now exists b|discriminate].
  - cbn [Py.contains]. rewrite orb_true_iff, startswith_spec, IH. split.
    + intros [(t & Ht) | (a & b & ->)].
      * now exists EmptyString, t.
      * now exists (String c a), b.
    + intros (a & b & H). destruct a as [|x a].
      * left. now exists b.
      * right. inversion H. now exists a, b.
Qed.

(** Splitting at a slash. *)

Lemma split_slash_cons (cur : string) (c : ascii) (s : string) :
  Py.split_go "/" 0 cur (String c s) =
  if Py.ascii_eqb "/" c then Py.rev cur :: Py.split_go "/" 0 EmptyString s
  else Py.split_go "/" 0 (String c cur) s.
Proof.
  cbn [Py.split_go Py.startswith]. rewrite andb_true_r. reflexivity.
Qed.

Lemma split_go_length (sep : string) (k : nat) (cur s : string) :
  (1 <= length (Py.split_go sep k cur s))%nat.
Proof.
  revert k cur. induction s as [|c s IH]; intros k cur; cbn; [lia|].
  destruct k; [|apply IH].
  destruct (Py.startswith sep (String c s)); [cbn; lia | apply IH].
Qed.

Lemma no_slash_cons (c : ascii) (s : string) :
  Py.contains "/" (String c s) = false ->
  Py.ascii_eqb "/" c = false /\ Py.contains "/" s = false.
Proof.
  cbn [Py.contains Py.startswith]. rewrite andb_true_r.
  now intros [? ?]%orb_false_elim.
Qed.

Lemma split_slash_piece (a cur b : string) :
  Py.contains "/" a = false ->
  Py.split_go "/" 0 cur (a ++s String "/" b) =
  (Py.rev cur ++s a) :: Py.split_go "/" 0 EmptyString b.
Proof.
  revert cur. induction a as [|c a IH]; intros cur Ha.
  - rewrite append_empty_l, split_slash_cons. cbn.
    now rewrite append_empty_r.
  - apply no_slash_cons in Ha as [Hc Ha].
    rewrite append_cons, split_slash_cons, Hc, IH by exact Ha.
    now rewrite rev_cons, append_assoc.
Qed.

Lemma split_slash_last (a cur : string) :
  Py.contains "/" a = false ->
  Py.split_go "/" 0 cur a = [Py.rev cur ++s a].
Proof.
  revert cur. induction a as [|c a IH]; intros cur Ha.
  - cbn. now rewrite append_empty_r.
  - apply no_slash_cons in Ha as [Hc Ha].
    rewrite split_slash_cons, Hc, IH by exact Ha.
    now rewrite rev_cons, append_assoc.
Qed.

Lemma split_slash_append (a cur b : string) :
  exists l : list string,
    (1 <= length l)%nat /\
    Py.split_go "/" 0 cur (a ++s String "/" b) =
    l ++ Py.split_go "/" 0 EmptyString b.
Proof.
  revert cur. induction a as [|c a IH]; intros cur.
  - exists [Py.rev cur]. split; [cbn; lia|].
    rewrite append_empty_l. now rewrite split_slash_cons.
  - rewrite append_cons, split_slash_cons.
    destruct (Py.ascii_eqb "/" c).
    + destruct (IH EmptyString) as (l & Hl & ->).
      exists (Py.rev cur :: l). split; [cbn; lia | reflexivity].
    + apply IH.
Qed.

Lemma index_neg2_last_two {A} (l : list A) (x y : A) :
  Py.index_neg2 (l ++ [x; y]) = Ok x.
Proof.
  unfold Py.index_neg2. rewrite length_app. cbn [length].
  replace (length l + 2 - 2)%nat with (length l + 0)%nat by lia.
  replace (2 <=? length l + 2)%nat with true
    by (symmetry; apply Nat.leb_le; lia).
  now rewrite lookup_app_r, Nat.add_0_r, Nat.sub_diag by lia.
Qed.

Lemma index_neg2_ok {A} (l : list A) :
  (2 <= length l)%nat -> exists x, Py.index_neg2 l = Ok x.
Proof.
  intros H. unfold Py.index_neg2.
  replace (2 <=? length l)%nat with true by (symmetry; now apply Nat.leb_le).
  destruct (lookup_lt_is_Some_2 l (length l - 2)%nat) as [x ->]; [lia|].
  now exists x.
Qed.

(** A URL that holds "/festivals/" splits into three pieces or more. *)
Lemma split_festival_url (h : string) :
  Py.contains "/festivals/" h = true ->
  (3 <= length (Py.split "/" h))%nat.
Proof.
  intros (a & b & ->)%contains_spec. unfold Py.split.
  change ("/festivals/" ++s b) with (String "/" ("festivals" ++s String "/" b)).
  destruct (split_slash_append a EmptyString ("festivals" ++s String "/" b))
    as (l & Hl & ->).
  rewrite split_slash_piece by reflexivity.
  rewrite length_app. cbn [length].
  pose proof (split_go_length "/" 0 EmptyString b). lia.
Qed.

End StringFacts.

(** ** The link collector, one anchor at a time *)

Lemma festival_href_inv (a : anchor) :
  is_festival_href (href a) = true ->
  exists h, href a = Some h /\ h <> EmptyString
            /\ Py.contains "/festivals/" h = true.
Proof.
  unfold is_festival_href. destruct (href a) as [h|]; [|discriminate].
  intros [Ht Hc]%andb_true_iff. exists h.
  now apply truthy_true in Ht.
Qed.

Lemma resolve_eq (h : string) :
  resolve h = if Py.startswith "/" h then site_origin +:+ h else h.
Proof. reflexivity. Qed.

Lemma resolve_contains (h : string) :
  Py.contains "/festivals/" h = true ->
  Py.contains "/festivals/" (resolve h) = true.
Proof.
  intros H. rewrite resolve_eq. destruct (Py.startswith "/" h); [|exact H].
  apply contains_spec in H as (a & b & ->). apply contains_spec.
  exists (site_origin +:+ a), b. symmetry. apply append_assoc.
Qed.

(** The label of a link to a detail page never raises: the address has
    enough slashes for [split('/')[-2]]. *)
Lemma link_name_ok (a : anchor) (h : string) :
  Py.contains "/festivals/" h = true ->
  exists n, link_name a (resolve h) = Ok n.
Proof.
  intros H%resolve_contains%split_festival_url. unfold link_name.
  destruct (_ || _); [|eauto].
  destruct (index_neg2_ok (Py.split "/" (resolve h))) as [x ->]; [lia|].
  eauto.
Qed.

Lemma candidate_some (a : anchor) (h : string) :
  href a = Some h -> Py.contains "/festivals/" h = true ->
  h <> EmptyString -> Py.endswith "/festivals/" h = false ->
  exists n, link_name a (resolve h) = Ok n
            /\ candidate a = Some {| name := n; url := resolve h |}.
Proof.
  intros Hh Hc Hne He. destruct (link_name_ok a h Hc) as [n Hn].
  exists n. split; [exact Hn|].
  unfold candidate. rewrite Hh. cbv zeta. cbn [default from_option id].
  apply truthy_true in Hne. now rewrite Hne, He, Hn.
Qed.

Lemma candidate_none (a : anchor) (h : string) :
  href a = Some h -> Py.endswith "/festivals/" h = true ->
  candidate a = None.
Proof.
  intros Hh He. unfold candidate. rewrite Hh. cbv zeta. cbn [default from_option id].
  now rewrite He, orb_true_r.
Qed.

(** One turn of the loop is a merge of the anchor's candidate entry. *)
Lemma collect_link_merge (st : crawl_state) (a : anchor) :
  is_festival_href (href a) = true ->
  collect_link st a =
    (match candidate a with Some e => merge st e | None => st end, Ok tt).
Proof.
  intros (h & Hh & Hne & Hc)%festival_href_inv.
  destruct (Py.endswith "/festivals/" h) eqn:He.
  - rewrite (candidate_none a h Hh He). unfold collect_link.
    rewrite Hh. cbv zeta. cbn [default from_option id]. now rewrite He, orb_true_r.
  - destruct (candidate_some a h Hh Hc Hne He) as (n & Hn & ->).
    unfold collect_link, merge. rewrite Hh. cbv zeta. cbn [default from_option id url].
    apply truthy_true in Hne. rewrite Hne, He. cbn [negb orb].
    destruct (bool_decide (resolve h ∈ seen_urls st)); [reflexivity|].
    now rewrite Hn.
Qed.

Lemma collect_links_merge (st : crawl_state) (l : list anchor) :
  Forall (fun a => is_festival_href (href a) = true) l ->
  collect_links st l = (foldl merge st (omap candidate l), Ok tt).
Proof.
  intros Hl. revert st. induction Hl as [|a l Ha _ IH]; intros st.
  - reflexivity.
  - cbn [collect_links]. rewrite (collect_link_merge st a Ha).
    cbn [omap list_omap]. destruct (candidate a) as [e|]; apply IH.
Qed.

Lemma find_festival_links_filtered (s : soup) :
  Forall (fun a => is_festival_href (href a) = true) (find_festival_links s).
Proof.
  unfold find_festival_links. apply Forall_forall.
  intros a Ha%list_elem_of_In%filter_In. apply Ha.
Qed.

Lemma collect_page (st : crawl_state) (s : soup) :
  collect_links st (find_festival_links s) =
    (foldl merge st (page_candidates s), Ok tt).
Proof. apply collect_links_merge, find_festival_links_filtered. Qed.

(** ** C7: which anchors are left out *)

(** C7, as amended: an anchor whose target contains "/festivals/" is left
    out of the candidates if and only if its target ends with
    "/festivals/"; the listing root, as a path or in full, is such a
    target.  An anchor that is left out changes nothing; every other such
    anchor is kept, so that its resolved address is among the seen ones
    after its turn. *)
Theorem anchor_excluded_iff_suffix (a : anchor) (h : string) :
  is_festival_href (href a) = true -> href a = Some h ->
  (candidate a = None <-> exists t, h = t +:+ "/festivals/")
  /\ (is_listing_root h -> candidate a = None)
  /\ (candidate a = None -> forall st, collect_link st a = (st, Ok tt))
  /\ (candidate a <> None ->
      forall st, resolve h ∈ seen_urls (collect_link st a).1).
Proof.
  intros Ha Hh.
  destruct (festival_href_inv a Ha) as (h' & Hh' & Hne & Hc).
  assert (h' = h) as -> by congruence.
  assert (Hiff : candidate a = None <-> exists t, h = t +:+ "/festivals/").
  { rewrite <- endswith_spec.
    destruct (Py.endswith "/festivals/" h) eqn:He.
    - split; [reflexivity | intros _; now apply (candidate_none a h)].
    - destruct (candidate_some a h Hh Hc Hne He) as (n & _ & ->).
      split; discriminate. }
  split; [exact Hiff|]. split; [|split].
  - intros [E | E]; apply Hiff;
      [exists EmptyString | exists site_origin]; exact E.
  - intros Hn st. now rewrite collect_link_merge, Hn.
  - intros Hn st. rewrite collect_link_merge by exact Ha.
    destruct (Py.endswith "/festivals/" h) eqn:He.
    + now rewrite (candidate_none a h Hh He) in Hn.
    + destruct (candidate_some a h Hh Hc Hne He) as (n & _ & ->).
      cbn [fst]. unfold merge. cbn [url]. case_bool_decide as Hin.
      * exact Hin.
      * cbn [seen_urls]. apply elem_of_union. left.
        now apply elem_of_singleton.
Qed.

Lemma anchor_excluded_iff_suffix_witness :
  candidate (link_to "/festivals/" "All festivals") = None
  /\ candidate (link_to "/festivals/coachella/" "Coachella") <> None.
Proof.
  split.
  - exact (proj1 (proj2
      (anchor_excluded_iff_suffix (link_to "/festivals/" "All festivals")
         "/festivals/" eq_refl eq_refl)) (or_introl eq_refl)).
  - intros H.
    destruct (proj1 (proj1
      (anchor_excluded_iff_suffix
         (link_to "/festivals/coachella/" "Coachella")
         "/festivals/coachella/" eq_refl eq_refl)) H) as (t & Ht).
    assert (E : Py.endswith "/festivals/" "/festivals/coachella/" = true)
      by (apply endswith_spec; now exists t).
    vm_compute in E. discriminate.
Defined.

(** C7 as stated fails: this target is not the listing root, under either
    of its spellings, and its anchor is left out. *)
Lemma excluded_but_not_listing_root :
  is_festival_href (href (link_to "/genre/festivals/" "By genre")) = true
  /\ ~ is_listing_root "/genre/festivals/"
  /\ candidate (link_to "/genre/festivals/" "By genre") = None
  /\ collect_link initial_state (link_to "/genre/festivals/" "By genre")
     = (initial_state, Ok tt).
Proof.
  split; [reflexivity|]. split.
  - intros [H|H]; vm_compute in H; discriminate.
  - split; reflexivity.
Qed.

(** ** C8: the label of a link *)

(** C8, as amended: for a candidate anchor the name is the stripped anchor
    text when that has three characters or more; otherwise it is made from
    the last but one piece of the address cut at its slashes, hyphens
    turned into spaces and the result title-cased.  That piece is the last
    path segment when the address ends with that segment and one slash. *)
Theorem link_name_cases (a : anchor) (h : string) :
  is_festival_href (href a) = true -> href a = Some h ->
  let t := get_text_strip (a_tag a) in
  let u := resolve h in
  ((3 <= String.length t)%nat -> link_name a u = Ok t)
  /\ ((String.length t < 3)%nat ->
      exists seg, Py.index_neg2 (Py.split "/" u) = Ok seg /\
                  link_name a u = Ok (Py.title (Py.replace_char "-" " " seg)))
  /\ ((String.length t < 3)%nat -> forall pre seg,
        Py.contains "/" seg = false -> u = pre +:+ "/" +:+ seg +:+ "/" ->
        link_name a u = Ok (Py.title (Py.replace_char "-" " " seg))).
Proof.
  intros Ha Hh t u.
  destruct (festival_href_inv a Ha) as (h' & Hh' & Hne & Hc).
  assert (h' = h) as -> by congruence.
  assert (Hshort : (String.length t < 3)%nat ->
            link_name a u =
            match Py.index_neg2 (Py.split "/" u) with
            | Ok seg => Ok (Py.title (Py.replace_char "-" " " seg))
            | Raise e => Raise e
            end).
  { intros Hlt. unfold link_name. fold t.
    apply Nat.ltb_lt in Hlt. now rewrite Hlt, orb_true_r. }
  split; [|split].
  - intros Hlen. unfold link_name. fold t.
    assert (Py.truthy t = true) as -> by (destruct t; [cbn in Hlen; lia|easy]).
    now apply Nat.ltb_ge in Hlen as ->.
  - intros Hlt. rewrite (Hshort Hlt).
    apply resolve_contains, split_festival_url in Hc. fold u in Hc.
    destruct (index_neg2_ok (Py.split "/" u)) as [seg Hseg]; [lia|].
    exists seg. now rewrite Hseg.
  - intros Hlt pre seg Hseg Hu. rewrite (Hshort Hlt), Hu.
    unfold Py.split.
    change ("/" +:+ seg +:+ "/") with (String "/" (seg +:+ String "/" "")).
    destruct (split_slash_append pre EmptyString (seg +:+ String "/" ""))
      as (l & _ & ->).
    rewrite split_slash_piece by exact Hseg.
    change (Py.split_go "/" 0 "" "") with [EmptyString].
    change (Py.rev "" +:+ seg) with seg.
    now rewrite index_neg2_last_two.
Qed.

Lemma link_name_cases_witness :
  link_name (link_to "/festivals/big-day-out/" "")
            (resolve "/festivals/big-day-out/") = Ok "Big Day Out".
Proof.
  refine (proj2 (proj2
    (link_name_cases (link_to "/festivals/big-day-out/" "")
       "/festivals/big-day-out/" eq_refl eq_refl)) _
    "https://www.musicfestivalwizard.com/festivals" "big-day-out"
    eq_refl eq_refl).
  cbn. lia.
Defined.

(** C8 as stated fails: an address without a closing slash gives the piece
    before its last path segment. *)
Lemma label_not_from_last_segment :
  let h := "https://www.musicfestivalwizard.com/festivals/coachella-2026" in
  let a := {| href := Some h; a_tag := {| strings := [] |} |} in
  is_festival_href (href a) = true
  /\ candidate a = Some {| name := "Festivals"; url := h |}
  /\ last_segment_label (resolve h) = "Coachella 2026".
Proof. repeat split; reflexivity. Qed.

(** ** The crawl as a merge of candidate entries *)

Lemma foldl_merge_first (l : list festival_link) (st : crawl_state) :
  all_festivals (foldl merge st l) =
  all_festivals st ++ first_occurrences (seen_urls st) l.
Proof.
  revert st. induction l as [|e l IH]; intros st; cbn [foldl first_occurrences].
  - now rewrite app_nil_r.
  - rewrite IH. unfold merge.
    destruct (bool_decide (url e ∈ seen_urls st)); [reflexivity|].
    cbn [all_festivals seen_urls]. now rewrite <- app_assoc.
Qed.

Lemma foldl_scrape_page (r : renderer) (base_url : string) (pages : list Z)
    (st : crawl_state) (calls : nat) :
  foldl (scrape_page r base_url) (st, calls) pages =
  (foldl merge st (concat (map page_candidates (crawled r base_url calls pages))),
   (calls + length pages)%nat).
Proof.
  revert st calls.
  induction pages as [|page pages IH]; intros st calls; cbn [foldl crawled].
  - cbn. now rewrite Nat.add_0_r.
  - unfold scrape_page at 2.
    destruct (r calls (page_url base_url page)) as [e|[|] s];
      rewrite IH; cbn [length]; rewrite ?Nat.add_succ_r; try reflexivity.
    rewrite collect_page. cbn [fst map concat]. now rewrite foldl_app.
Qed.

Lemma get_festival_links_ok (r : renderer) (base_url : string)
    (max_pages : option Z) (calls calls' : nat) (links : list festival_link) :
  get_festival_links r base_url max_pages calls = (Ok links, calls') ->
  links = first_occurrences ∅ (crawl_candidates r base_url max_pages calls).
Proof.
  unfold get_festival_links, crawl_candidates.
  destruct (r calls base_url) as [e|m s]; [discriminate|].
  destruct (get_total_pages s) as [total|e]; [|discriminate].
  fold (page_bound max_pages total).
  rewrite foldl_scrape_page, foldl_merge_first. cbn. congruence.
Qed.

(** What [first_occurrences] keeps. *)

Lemma first_occurrences_fresh (l : list festival_link) (seen : gset string)
    (e : festival_link) :
  e ∈ first_occurrences seen l -> url e ∉ seen.
Proof.
  revert seen. induction l as [|x l IH]; intros seen; cbn [first_occurrences].
  - intros H. inversion H.
  - case_bool_decide as Hx; [apply IH|].
    intros [-> | He]%elem_of_cons; [exact Hx|].
    apply IH in He. set_solver.
Qed.

Lemma first_occurrences_nodup (l : list festival_link) (seen : gset string) :
  NoDup (map url (first_occurrences seen l)).
Proof.
  revert seen. induction l as [|x l IH]; intros seen; cbn [first_occurrences].
  - constructor.
  - case_bool_decide as Hx; [apply IH|].
    cbn [map]. constructor; [|apply IH].
    intros (e & He & Hin)%list_elem_of_fmap.
    apply first_occurrences_fresh in Hin. set_solver.
Qed.

Lemma first_occurrences_sublist (l : list festival_link) (seen : gset string) :
  sublist (first_occurrences seen l) l.
Proof.
  revert seen. induction l as [|x l IH]; intros seen; cbn [first_occurrences].
  - constructor.
  - case_bool_decide; [apply sublist_cons | apply sublist_skip]; apply IH.
Qed.

Lemma first_occurrences_covers (l : list festival_link) (seen : gset string)
    (e : festival_link) :
  e ∈ l -> url e ∈ seen \/ url e ∈ map url (first_occurrences seen l).
Proof.
  revert seen. induction l as [|x l IH]; intros seen; cbn [first_occurrences].
  - intros H. inversion H.
  - intros [-> | He]%elem_of_cons.
    + case_bool_decide as Hx; [now left | right; cbn [map]; left].
    + case_bool_decide as Hx; [now apply IH|].
      destruct (IH ({[url x]} ∪ seen) He) as [Hs | Hr].
      * apply elem_of_union in Hs as [->%elem_of_singleton | Hs];
          [right; cbn [map]; left | now left].
      * right. cbn [map]. now right.
Qed.

Lemma first_occurrences_first (l : list festival_link) (seen : gset string)
    (e : festival_link) :
  e ∈ first_occurrences seen l ->
  exists l1 l2, l = l1 ++ e :: l2 /\ url e ∉ map url l1.
Proof.
  revert seen. induction l as [|x l IH]; intros seen; cbn [first_occurrences].
  - intros H. inversion H.
  - case_bool_decide as Hx.
    + intros He. pose proof (first_occurrences_fresh _ _ _ He) as Hfr.
      destruct (IH _ He) as (l1 & l2 & -> & Hl1).
      exists (x :: l1), l2. split; [reflexivity|].
      cbn [map]. intros [E | Hin]%elem_of_cons; [|now apply Hl1].
      apply Hfr. now rewrite E.
    + intros [-> | He]%elem_of_cons.
      * exists [], l. split; [reflexivity|]. cbn. intros H. inversion H.
      * pose proof (first_occurrences_fresh _ _ _ He) as Hfr.
        destruct (IH _ He) as (l1 & l2 & -> & Hl1).
        exists (x :: l1), l2. split; [reflexivity|].
        cbn [map]. intros [E | Hin]%elem_of_cons; [|now apply Hl1].
        apply Hfr. rewrite E. set_solver.
Qed.

(** ** C2: no address twice, first occurrence kept, order kept *)

(** C2: whatever the session serves, the links [get_festival_links] returns
    carry no address twice.  They are the candidate entries of the crawl
    with the later duplicates left out: a sub-sequence of the candidates,
    in their order; every candidate's address is there; and each link
    returned is the first candidate with its address.  Going through the
    anchors of a page raises nothing, whatever was seen before. *)
Theorem links_deduplicated (r : renderer) (base_url : string)
    (max_pages : option Z) (calls calls' : nat) (links : list festival_link) :
  get_festival_links r base_url max_pages calls = (Ok links, calls') ->
  let candidates := crawl_candidates r base_url max_pages calls in
  NoDup (map url links)
  /\ sublist links candidates
  /\ (forall e, e ∈ candidates -> url e ∈ map url links)
  /\ (forall e, e ∈ links ->
      exists l1 l2, candidates = l1 ++ e :: l2 /\ url e ∉ map url l1)
  /\ (forall st s, (collect_links st (find_festival_links s)).2 = Ok tt).
Proof.
  intros H candidates. apply get_festival_links_ok in H. fold candidates in H.
  subst links. split; [apply first_occurrences_nodup|].
  split; [apply first_occurrences_sublist|]. split; [|split].
  - intros e He.
    destruct (first_occurrences_covers candidates ∅ e He) as [Hs|Hr];
      [|exact Hr].
    now apply not_elem_of_empty in Hs.
  - intros e He. now apply first_occurrences_first in He.
  - intros st s. now rewrite collect_page.
Qed.

Example two_pages_crawl :
  get_festival_links two_pages main_url None 0 = (Ok two_pages_links, 3%nat).
Proof. vm_compute. reflexivity. Qed.

Lemma links_deduplicated_witness :
  NoDup (map url two_pages_links)
  /\ sublist two_pages_links (crawl_candidates two_pages main_url None 0).
Proof.
  assert (H : get_festival_links two_pages main_url None 0
              = (Ok two_pages_links, 3%nat)) by (vm_compute; reflexivity).
  split.
  - exact (proj1 (links_deduplicated two_pages main_url None 0 3 _ H)).
  - exact (proj1 (proj2 (links_deduplicated two_pages main_url None 0 3 _ H))).
Defined.

(** ** C9: the addresses that are stored *)

Lemma crawl_candidate_source (r : renderer) (base_url : string)
    (max_pages : option Z) (calls : nat) (e : festival_link) :
  e ∈ crawl_candidates r base_url max_pages calls ->
  exists a, is_festival_href (href a) = true /\ candidate a = Some e.
Proof.
  unfold crawl_candidates.
  destruct (r calls base_url) as [x|m s]; [intros H; inversion H|].
  destruct (get_total_pages s) as [total|x]; [|intros H; inversion H].
  intros (cands & (p & <- & _)%in_map_iff & Hin)%list_elem_of_In%in_concat.
  apply list_elem_of_In, list_elem_of_omap in Hin as (a & Ha & Hcand).
  exists a. split; [|exact Hcand].
  pose proof (find_festival_links_filtered p) as Hall.
  rewrite Forall_forall in Hall. now apply Hall.
Qed.

Lemma is_absolute_resolve (h : string) :
  is_absolute (resolve h) = Py.startswith "/" h || is_absolute h.
Proof.
  rewrite resolve_eq. destruct h as [|c h]; [reflexivity|].
  cbn [Py.startswith]. rewrite andb_true_r. unfold Py.ascii_eqb.
  case_bool_decide as Hc; [subst c|]; reflexivity.
Qed.

Lemma candidate_origin (a : anchor) (e : festival_link) :
  is_festival_href (href a) = true -> candidate a = Some e ->
  exists h, href a = Some h /\ Py.endswith "/festivals/" h = false
            /\ url e = resolve h.
Proof.
  intros (h & Hh & Hne & Hc)%festival_href_inv Hcand. exists h.
  split; [exact Hh|].
  destruct (Py.endswith "/festivals/" h) eqn:He.
  - rewrite (candidate_none a h Hh He) in Hcand. discriminate.
  - split; [reflexivity|].
    destruct (candidate_some a h Hh Hc Hne He) as (n & _ & E).
    rewrite E in Hcand. now inversion Hcand.
Qed.

Lemma crawl_candidates_documents (r : renderer) (base_url : string)
    (max_pages : option Z) (calls : nat) :
  crawl_candidates r base_url max_pages calls =
  concat (map page_candidates (crawl_documents r base_url max_pages calls)).
Proof.
  unfold crawl_candidates, crawl_documents.
  destruct (r calls base_url) as [x|m s]; [reflexivity|].
  now destruct (get_total_pages s).
Qed.

Lemma elem_of_page_candidates (l : list soup) (e : festival_link) :
  e ∈ concat (map page_candidates l) <->
  exists s, s ∈ l /\ e ∈ page_candidates s.
Proof.
  rewrite list_elem_of_In, in_concat. split.
  - intros (c & Hc & He). apply in_map_iff in Hc as (s & <- & Hs).
    exists s. split; apply list_elem_of_In; assumption.
  - intros (s & Hs & He). exists (page_candidates s). split.
    + apply in_map_iff. exists s. split; [reflexivity|].
      now apply list_elem_of_In.
    + now apply list_elem_of_In.
Qed.

(** C9, as amended: in a crawl, every anchor to a detail page that the loop
    reads and does not leave out has its target in the link collection
    after this step: with the site's origin in front when the target
    starts with "/", as it is otherwise.  Every address in the collection
    is the target of such an anchor after this step, the comparison for
    duplicates being made on it; so it is absolute exactly when the target
    started with "/" or was absolute already. *)
Theorem stored_urls_resolved (r : renderer) (base_url : string)
    (max_pages : option Z) (calls calls' : nat) (links : list festival_link) :
  get_festival_links r base_url max_pages calls = (Ok links, calls') ->
  let documents := crawl_documents r base_url max_pages calls in
  let stored (h : string) :=
    if Py.startswith "/" h then site_origin +:+ h else h in
  NoDup (map url links)
  /\ (forall s a h,
        s ∈ documents -> a ∈ find_festival_links s -> href a = Some h ->
        Py.endswith "/festivals/" h = false ->
        stored h ∈ map url links)
  /\ (forall e, e ∈ links ->
        exists s a h,
          s ∈ documents /\ a ∈ find_festival_links s /\ href a = Some h
          /\ Py.endswith "/festivals/" h = false
          /\ url e = stored h
          /\ (is_absolute (url e) = true <->
              Py.startswith "/" h = true \/ is_absolute h = true)).
Proof.
  intros ->%get_festival_links_ok documents stored.
  rewrite crawl_candidates_documents. fold documents.
  split; [apply first_occurrences_nodup|]. split.
  - intros s a h Hs Ha Hh He.
    pose proof (find_festival_links_filtered s) as Hall.
    rewrite Forall_forall in Hall. specialize (Hall a Ha).
    destruct (festival_href_inv a Hall) as (h' & Hh' & Hne & Hc).
    assert (h' = h) as -> by congruence.
    destruct (candidate_some a h Hh Hc Hne He) as (n & _ & Hcand).
    assert (Hin : {| name := n; url := resolve h |}
                  ∈ concat (map page_candidates documents)).
    { apply elem_of_page_candidates. exists s. split; [exact Hs|].
      apply list_elem_of_omap. now exists a. }
    destruct (first_occurrences_covers _ ∅ _ Hin) as [Hs'|Hr];
      [now apply not_elem_of_empty in Hs' | exact Hr].
  - intros e He.
    pose proof (elem_of_sublist _ _ _ He (first_occurrences_sublist _ _)) as Hc.
    apply elem_of_page_candidates in Hc as (s & Hs & Hc).
    apply list_elem_of_omap in Hc as (a & Ha & Hcand).
    pose proof (find_festival_links_filtered s) as Hall.
    rewrite Forall_forall in Hall. specialize (Hall a Ha).
    destruct (candidate_origin a e Hall Hcand) as (h & Hh & Hends & Hu).
    exists s, a, h. split; [exact Hs|]. split; [exact Ha|].
    split; [exact Hh|]. split; [exact Hends|]. split; [exact Hu|].
    rewrite Hu, is_absolute_resolve. apply orb_true_iff.
Qed.

Lemma stored_urls_resolved_witness :
  "https://www.musicfestivalwizard.com/festivals/sonar-2026/"
    ∈ map url two_pages_links
  /\ NoDup (map url two_pages_links).
Proof.
  assert (H : get_festival_links two_pages main_url None 0
              = (Ok two_pages_links, 3%nat)) by (vm_compute; reflexivity).
  pose proof (stored_urls_resolved two_pages main_url None 0 3 _ H)
    as (Hnd & Hin & _).
  split; [|exact Hnd].
  apply (Hin second_listing (link_to "/festivals/sonar-2026/" "")
             "/festivals/sonar-2026/").
  - change (crawl_documents two_pages main_url None 0)
      with [first_listing; second_listing].
    apply elem_of_cons. right. apply elem_of_cons. now left.
  - change (find_festival_links second_listing)
      with [link_to "/festivals/big-day-out/" "Big Day Out again";
            link_to "/festivals/sonar-2026/" ""].
    apply elem_of_cons. right. apply elem_of_cons. now left.
  - reflexivity.
  - reflexivity.
Defined.

(** C9 as stated fails: a target relative to the page is stored as it is. *)
Lemma relative_target_stored :
  get_festival_links relative_link_page main_url None 0 =
    (Ok [ {| name := "Coachella"; url := "../festivals/coachella/" |} ], 2%nat)
  /\ is_absolute "../festivals/coachella/" = false.
Proof. split; vm_compute; reflexivity. Qed.

(** ** C3: failures stay where they happen *)

Lemma get_festival_links_rendered (r : renderer) (base_url : string)
    (max_pages : option Z) (calls : nat) (m : bool) (s : soup) :
  r calls base_url = Rendered m s ->
  exists links calls',
    get_festival_links r base_url max_pages calls = (Ok links, calls').
Proof.
  intros H. unfold get_festival_links. rewrite H, get_total_pages_eq.
  destruct (foldl _ _ _) as [st calls']. eauto.
Qed.

Lemma structured_stage_name (d : festival_data) (s : soup) (o : event_object) :
  ld_json s = Some (Ok (JObject o)) ->
  fd_name (structured_stage d s) = get_str (ld_name o).
Proof.
  intros H. unfold structured_stage. rewrite H. cbn [json_ld_stage].
  assert (E : forall a b x, fd_name (structured_date a b x) = fd_name x).
  { intros a b x. unfold structured_date.
    destruct (_ && _); [reflexivity|]. now destruct (Py.truthy a). }
  destruct (ld_location o) as [[[[locality region|]|]|]|]; cbn; apply E.
Qed.

(** C3, as amended: a request or a wait that fails for a listing page inside
    the page loop is caught there: the page gives no link and the loop goes
    on.  A request that fails for a detail page gives the empty record; a
    structured-data block that does not parse, or is not an object, leaves
    the record to the fallback, and one that fails later keeps the name it
    gave.  When the page-count request is answered, the crawl returns its
    links and the run ends in one of two ways: without a file when no link
    was collected, with the file of the retained records otherwise. *)
Theorem failures_contained (r : renderer) :
  (forall base_url st calls page,
     (forall s, r calls (page_url base_url page) <> Rendered true s) ->
     scrape_page r base_url (st, calls) page = (st, S calls))
  /\ (forall u calls e,
        r calls u = FetchError e ->
        scrape_festival_details r u calls = (empty_data, S calls))
  /\ (forall d s,
        (ld_json s = Some (Ok JOther) \/ exists e, ld_json s = Some (Raise e)) ->
        structured_stage d s = d)
  /\ (forall d s o,
        ld_json s = Some (Ok (JObject o)) ->
        fd_name (structured_stage d s) = get_str (ld_name o))
  /\ (forall m s,
        r 0%nat main_url = Rendered m s ->
        exists links calls,
          get_festival_links r main_url None 0 = (Ok links, calls)
          /\ (links = [] -> main r = NoFestivals)
          /\ (links <> [] ->
              main r = Exported (save_to_csv (scrape_all r links calls).1))).
Proof.
  split; [|split; [|split; [|split]]].
  - intros base_url st calls page H. unfold scrape_page.
    destruct (r calls (page_url base_url page)) as [e|[|] s];
      try reflexivity.
    now destruct (H s).
  - intros u calls e H. unfold scrape_festival_details. now rewrite H.
  - intros d s [H | (e & H)]; unfold structured_stage; now rewrite H.
  - apply structured_stage_name.
  - intros m s H.
    destruct (get_festival_links_rendered r main_url None 0 m s H)
      as (links & calls & E).
    exists links, calls. split; [exact E|]. unfold main. rewrite E.
    split; [now intros ->|]. now destruct links.
Qed.

(** C3 as stated fails: the requests of the page loop all fail, each is
    caught, no link is collected, and the run ends without an export. *)
Lemma run_without_export :
  only_first_answer 0%nat main_url = Rendered true first_listing
  /\ (forall n u, (0 < n)%nat ->
        only_first_answer n u = FetchError WebDriverException)
  /\ main only_first_answer = NoFestivals
  /\ forall file, main only_first_answer <> Exported file.
Proof.
  split; [reflexivity|]. split.
  - intros [|n] u Hn; [lia | reflexivity].
  - assert (E : main only_first_answer = NoFestivals)
      by (vm_compute; reflexivity).
    split; [exact E|]. intros file. rewrite E. discriminate.
Qed.

(** The request for the page count is made outside any [try]: when it
    fails, the exception leaves [get_festival_links] and [main]. *)
Example first_request_fails :
  main no_answer = Aborted WebDriverException.
Proof. reflexivity. Qed.

Example whole_run_exports :
  main whole_run =
    Exported
      [ ["Festival"; "Date"; "Location"; "Artists"];
        ["Test Fest"; "2026-06-01 - 2026-06-03"; "Austin, TX"; ""];
        ["TEST FEST 2026 | Tickets"; ""; ""; ""] ].
Proof. vm_compute. reflexivity. Qed.

(** ** C6: the artists column read back *)

Section JoinSplit.

Local Abbreviation sep := ", " (only parsing).

Lemma split_sep_cons (cur : string) (c : ascii) (s : string) :
  Py.split_go sep 0 cur (String c s) =
  if Py.startswith sep (String c s)
  then Py.rev cur :: Py.split_go sep 1 EmptyString s
  else Py.split_go sep 0 (String c cur) s.
Proof. reflexivity. Qed.

Lemma split_sep_skip (cur : string) (c : ascii) (s : string) :
  Py.split_go sep 1 cur (String c s) = Py.split_go sep 0 cur s.
Proof. reflexivity. Qed.

Lemma no_sep_cons (c : ascii) (x : string) :
  Py.contains sep (String c x) = false ->
  Py.startswith sep (String c x) = false /\ Py.contains sep x = false.
Proof. cbn [Py.contains]. now intros [? ?]%orb_false_elim. Qed.

(** No separator starts on the last character of a piece. *)
Lemma startswith_sep_append (c : ascii) (x rest : string) :
  Py.startswith sep (String c x) = false ->
  Py.startswith sep (String c (x +:+ sep +:+ rest)) = false.
Proof.
  cbn [Py.startswith].
  destruct (Py.ascii_eqb "," c); [|reflexivity]. cbn [andb].
  destruct x as [|d x].
  - intros _. reflexivity.
  - rewrite append_cons. cbn [Py.startswith].
    now rewrite !andb_true_r.
Qed.

Lemma split_sep_piece (x cur rest : string) :
  Py.contains sep x = false ->
  Py.split_go sep 0 cur (x +:+ sep +:+ rest) =
  (Py.rev cur +:+ x) :: Py.split_go sep 0 EmptyString rest.
Proof.
  revert cur. induction x as [|c x IH]; intros cur Hx.
  - rewrite append_empty_l, append_empty_r. reflexivity.
  - apply no_sep_cons in Hx as [Hc Hx].
    rewrite append_cons, split_sep_cons, (startswith_sep_append c x rest Hc).
    rewrite IH by exact Hx. now rewrite rev_cons, append_assoc.
Qed.

Lemma split_sep_last (x cur : string) :
  Py.contains sep x = false ->
  Py.split_go sep 0 cur x = [Py.rev cur +:+ x].
Proof.
  revert cur. induction x as [|c x IH]; intros cur Hx.
  - cbn. now rewrite append_empty_r.
  - apply no_sep_cons in Hx as [Hc Hx].
    rewrite split_sep_cons, Hc, IH by exact Hx.
    now rewrite rev_cons, append_assoc.
Qed.

(** Joining with ", " and splitting at ", " gives the pieces back, when
    there is at least one piece and no piece holds ", ". *)
Lemma split_join (l : list string) :
  l <> [] ->
  Forall (fun x => Py.contains sep x = false) l ->
  Py.split sep (Py.join sep l) = l.
Proof.
  intros Hne Hl. unfold Py.split.
  induction Hl as [|x l Hx Hl IH]; [congruence|].
  destruct l as [|y l].
  - cbn [Py.join]. now rewrite split_sep_last.
  - change (Py.join sep (x :: y :: l)) with (x +:+ sep +:+ Py.join sep (y :: l)).
    rewrite split_sep_piece by exact Hx.
    now rewrite IH.
Qed.

End JoinSplit.

Lemma read_rows_save (recs : list festival_data) :
  read_rows (save_to_csv recs) = map row_of recs.
Proof. reflexivity. Qed.

(** C6, as amended: exporting the retained records and reading the table
    back gives one row per record, in order; for a record with a
    non-empty lineup in which no artist name contains ", ", the Artists
    field of its row, split at ", ", is the record's artist sequence. *)
Theorem artists_round_trip (recs : list festival_data) :
  length (read_rows (save_to_csv recs)) = length recs
  /\ forall (i : nat) (rec : festival_data),
       recs !! i = Some rec ->
       fd_artists rec <> [] ->
       Forall (fun a => Py.contains ", " a = false) (fd_artists rec) ->
       exists row,
         read_rows (save_to_csv recs) !! i = Some row
         /\ Py.split ", " (artists_field row) = fd_artists rec.
Proof.
  rewrite read_rows_save. split; [apply length_map|].
  intros i rec Hi Hne Hall. exists (row_of rec). split.
  - change (map row_of recs) with (row_of <$> recs).
    now rewrite list_lookup_fmap, Hi.
  - cbn. now apply split_join.
Qed.

(** C6 as stated fails: a lineup entry that holds ", " is cut in two when
    the field is split. *)
Lemma comma_artist_split :
  let rec := extract comma_lineup in
  fd_name rec = "Camp Flog Gnaw"
  /\ fd_artists rec = ["Tyler, The Creator"; "Kali Uchis"]
  /\ exists row,
       read_rows (save_to_csv [rec]) !! 0%nat = Some row
       /\ Py.split ", " (artists_field row)
          = ["Tyler"; "The Creator"; "Kali Uchis"]
       /\ Py.split ", " (artists_field row) <> fd_artists rec.
Proof.
  cbv zeta. split; [reflexivity|]. split; [reflexivity|].
  eexists. split; [reflexivity|]. split; [reflexivity|].
  vm_compute. discriminate.
Qed.

(** * Further properties of the code *)

(** ** [get_unique_filename]: the name returned is free *)

Lemma append_cancel_l (a x y : string) : a +:+ x = a +:+ y -> x = y.
Proof.
  induction a as [|c a IH]; [easy|].
  rewrite !append_cons. intros H. apply IH. now inversion H.
Qed.

Lemma append_cancel_r (s x y : string) : x +:+ s = y +:+ s -> x = y.
Proof.
  intros H. apply (f_equal Py.rev) in H. rewrite !rev_append in H.
  apply append_cancel_l in H.
  now rewrite <- (rev_involutive x), H, rev_involutive.
Qed.

Section UniqueFilename.

Variables base_name date_str : string.

Lemma numbered_name_inj (i j : Z) :
  numbered_name base_name date_str i = numbered_name base_name date_str j ->
  i = j.
Proof.
  unfold numbered_name. intros H.
  do 4 apply append_cancel_l in H.
  apply append_cancel_r in H. now apply (inj pretty).
Qed.

Lemma numbered_name_not_first (j : Z) :
  numbered_name base_name date_str j <> csv_name base_name date_str.
Proof.
  unfold numbered_name, csv_name. intros H.
  do 3 apply append_cancel_l in H. discriminate.
Qed.

(** The loop looks at the current name and at the names of the later
    counters only. *)
Lemma unique_filename_loop_ext (fuel : nat) (fs fs' : gset string)
    (c : Z) (f : string) :
  (f ∈ fs <-> f ∈ fs') ->
  (forall j, c < j ->
     numbered_name base_name date_str j ∈ fs <->
     numbered_name base_name date_str j ∈ fs') ->
  unique_filename_loop fs base_name date_str fuel c f =
  unique_filename_loop fs' base_name date_str fuel c f.
Proof.
  revert c f. induction fuel as [|fuel IH]; intros c f Hf Hlater; [easy|].
  cbn [unique_filename_loop]. rewrite (bool_decide_ext _ _ Hf).
  destruct (bool_decide (f ∈ fs')); [|reflexivity].
  apply IH; [apply Hlater; lia|]. intros j Hj. apply Hlater. lia.
Qed.

Lemma unique_filename_loop_free (fuel : nat) (fs : gset string)
    (c : Z) (f : string) :
  (size fs < fuel)%nat ->
  (forall j, c < j -> numbered_name base_name date_str j <> f) ->
  exists g,
    unique_filename_loop fs base_name date_str fuel c f = Some g
    /\ (g ∉ fs)
    /\ (g = f \/ exists j, c < j /\ g = numbered_name base_name date_str j).
Proof.
  revert fs c f. induction fuel as [|fuel IH]; intros fs c f Hsize Hf; [lia|].
  cbn [unique_filename_loop]. case_bool_decide as Hin.
  2:{ exists f. auto. }
  cbv zeta.
  rewrite (unique_filename_loop_ext fuel fs (fs ∖ {[ f ]})).
  - destruct (IH (fs ∖ {[ f ]}) (c + 1)
                 (numbered_name base_name date_str (c + 1)))
      as (g & Hg & Hfree & Hwhich).
    + rewrite size_difference by (now apply singleton_subseteq_l).
      rewrite size_singleton.
      assert ((size fs <> 0)%nat); [|lia].
      intros E%size_empty_inv. rewrite E in Hin.
      now apply not_elem_of_empty in Hin.
    + intros j Hj E. apply numbered_name_inj in E. lia.
    + exists g. split; [exact Hg|].
      assert (Hj : exists j, c < j /\ g = numbered_name base_name date_str j).
      { destruct Hwhich as [-> | (j & Hj & ->)];
          [exists (c + 1) | exists j]; split; auto; lia. }
      split; [|now right].
      destruct Hj as (j & Hj & ->). intros Hg'. apply Hfree.
      apply elem_of_difference. split; [exact Hg'|].
      intros E%elem_of_singleton. now apply (Hf j).
  - rewrite elem_of_difference, elem_of_singleton.
    pose proof (Hf (c + 1) ltac:(lia)). tauto.
  - intros j Hj. rewrite elem_of_difference, elem_of_singleton.
    pose proof (Hf j ltac:(lia)). tauto.
Qed.

Lemma unique_filename_loop_first (fuel : nat) (fs : gset string)
    (c : Z) (f g : string) :
  unique_filename_loop fs base_name date_str fuel c f = Some g ->
  (g = f /\ f ∉ fs)
  \/ (f ∈ fs /\ exists n,
        c < n /\ g = numbered_name base_name date_str n /\ (g ∉ fs)
        /\ forall j, c < j < n -> numbered_name base_name date_str j ∈ fs).
Proof.
  revert c f. induction fuel as [|fuel IH]; intros c f; [easy|].
  cbn [unique_filename_loop]. case_bool_decide as Hin.
  2:{ intros [= <-]. now left. }
  cbv zeta. intros [(-> & Hfree) | (Hin' & n & Hn & -> & Hfree & Hall)]%IH;
    right; (split; [exact Hin|]).
  - exists (c + 1). repeat split; auto; lia.
  - exists n. split; [lia|]. split; [reflexivity|]. split; [exact Hfree|].
    intros j Hj. destruct (decide (j = c + 1)) as [-> | Hne]; [exact Hin'|].
    apply Hall. lia.
Qed.

End UniqueFilename.

(** Whatever files exist, [get_unique_filename] comes back, after at most
    one test more than there are files, with a name that does not exist. *)
Theorem unique_filename_is_free (existing : gset string)
    (date_str base_name : string) (fuel : nat) :
  (size existing < fuel)%nat ->
  exists filename,
    get_unique_filename existing date_str base_name fuel = Some filename
    /\ filename ∉ existing.
Proof.
  intros Hfuel.
  destruct (unique_filename_loop_free base_name date_str fuel existing 1
              (csv_name base_name date_str) Hfuel) as (g & Hg & Hfree & _).
  - intros j _. apply numbered_name_not_first.
  - exists g. split; assumption.
Qed.

Lemma unique_filename_is_free_witness :
  exists filename,
    get_unique_filename two_exports "11-04-2026" "Festival Output" 3
      = Some filename
    /\ filename ∉ two_exports.
Proof.
  apply (unique_filename_is_free two_exports "11-04-2026" "Festival Output" 3).
  vm_compute. lia.
Defined.

(** The name returned is the first free one in the order the code tries
    them: the plain name, then the names numbered 2, 3, ...; the number 1
    is never used. *)
Theorem unique_filename_is_first_free (existing : gset string)
    (date_str base_name filename : string) (fuel : nat) :
  get_unique_filename existing date_str base_name fuel = Some filename ->
  (filename = csv_name base_name date_str
   /\ csv_name base_name date_str ∉ existing)
  \/ (csv_name base_name date_str ∈ existing
      /\ exists n,
           2 <= n
           /\ filename = numbered_name base_name date_str n
           /\ (filename ∉ existing)
           /\ forall j, 2 <= j < n ->
                numbered_name base_name date_str j ∈ existing).
Proof.
  intros [H | (Hin & n & Hn & -> & Hfree & Hall)]%unique_filename_loop_first;
    [now left | right].
  split; [exact Hin|]. exists n. split; [lia|]. split; [reflexivity|].
  split; [exact Hfree|]. intros j Hj. apply Hall. lia.
Qed.

Lemma unique_filename_is_first_free_witness :
  "Festival Output 11-04-2026 (3).csv" ∉ two_exports.
Proof.
  destruct (unique_filename_is_first_free two_exports "11-04-2026"
              "Festival Output" "Festival Output 11-04-2026 (3).csv" 5
              ltac:(vm_compute; reflexivity))
    as [(_ & H) | (_ & n & _ & _ & H & _)].
  - intros _. apply H. vm_compute. reflexivity.
  - exact H.
Defined.

(** ** Stripping *)

Section Stripping.

Variable p : ascii -> bool.

Lemma drop_while_head : forall s, head_clean p (Py.drop_while p s).
Proof.
  induction s as [|c s IH]; [exact I|]. cbn [Py.drop_while].
  destruct (p c) eqn:E; [exact IH | exact E].
Qed.

Lemma drop_while_clean (s : string) :
  head_clean p s -> Py.drop_while p s = s.
Proof. destruct s as [|c s]; [easy|]. cbn. now intros ->. Qed.

Lemma drop_while_suffix (s : string) :
  exists pre, s = pre +:+ Py.drop_while p s.
Proof.
  induction s as [|c s (pre & IH)]; [now exists EmptyString|].
  cbn [Py.drop_while]. destruct (p c).
  - exists (String c pre). now rewrite append_cons, <- IH.
  - now exists EmptyString.
Qed.

Lemma drop_while_all (a s : string) :
  all_chars p a = true -> Py.drop_while p (a +:+ s) = Py.drop_while p s.
Proof.
  induction a as [|c a IH]; [easy|]. cbn [all_chars].
  intros [Hc Ha]%andb_true_iff. rewrite append_cons. cbn [Py.drop_while].
  rewrite Hc. now apply IH.
Qed.

Lemma head_clean_append (a b : string) :
  a <> EmptyString -> head_clean p a -> head_clean p (a +:+ b).
Proof. destruct a; [easy|]. now rewrite append_cons. Qed.

Lemma head_clean_prefix (a b : string) :
  a <> EmptyString -> head_clean p (a +:+ b) -> head_clean p a.
Proof. destruct a; [easy|]. now rewrite append_cons. Qed.

Lemma rev_empty_inv (s : string) : Py.rev s = EmptyString -> s = EmptyString.
Proof.
  destruct s as [|c s]; [easy|]. rewrite rev_cons.
  destruct (Py.rev s); discriminate.
Qed.

Lemma all_chars_append (a b : string) :
  all_chars p (a +:+ b) = all_chars p a && all_chars p b.
Proof.
  induction a as [|c a IH]; [easy|].
  rewrite append_cons. cbn [all_chars]. now rewrite IH, andb_assoc.
Qed.

Lemma all_chars_rev (s : string) : all_chars p (Py.rev s) = all_chars p s.
Proof.
  induction s as [|c s IH]; [easy|].
  rewrite rev_cons, all_chars_append, IH. cbn [all_chars].
  now rewrite andb_true_r, andb_comm.
Qed.

(** What is stripped has nothing left to strip at either end. *)
Lemma strip_with_clean (s : string) :
  head_clean p (Py.strip_with p s)
  /\ head_clean p (Py.rev (Py.strip_with p s)).
Proof.
  unfold Py.strip_with. set (t := Py.drop_while p s).
  set (d := Py.drop_while p (Py.rev t)).
  split; [|rewrite rev_involutive; apply drop_while_head].
  destruct (drop_while_suffix (Py.rev t)) as (pre & Hpre). fold d in Hpre.
  destruct (decide (d = EmptyString)) as [-> | Hd]; [exact I|].
  assert (Ht : t = Py.rev d +:+ Py.rev pre).
  { now rewrite <- rev_append, <- Hpre, rev_involutive. }
  apply (head_clean_prefix _ (Py.rev pre)).
  - intros E%rev_empty_inv. contradiction.
  - rewrite <- Ht. apply drop_while_head.
Qed.

(** A string that is clean at both ends is left as it is. *)
Lemma strip_with_id (s : string) :
  head_clean p s -> head_clean p (Py.rev s) -> Py.strip_with p s = s.
Proof.
  intros H1 H2. unfold Py.strip_with.
  now rewrite (drop_while_clean s H1), (drop_while_clean _ H2), rev_involutive.
Qed.

(** Characters of the class around a core that is clean at both ends are
    taken away, and nothing else. *)
Lemma strip_with_core (a m b : string) :
  all_chars p a = true -> all_chars p b = true ->
  head_clean p m -> head_clean p (Py.rev m) ->
  Py.strip_with p (a +:+ m +:+ b) = m.
Proof.
  intros Ha Hb Hm Hm'. unfold Py.strip_with.
  rewrite (drop_while_all a _ Ha).
  destruct (decide (m = EmptyString)) as [-> | Hne].
  - rewrite append_empty_l.
    rewrite <- (append_empty_r b) at 1. rewrite (drop_while_all b _ Hb).
    reflexivity.
  - rewrite (drop_while_clean (m +:+ b)) by now apply head_clean_append.
    rewrite rev_append, drop_while_all by now rewrite all_chars_rev.
    now rewrite (drop_while_clean _ Hm'), rev_involutive.
Qed.

Lemma strip_with_idempotent (s : string) :
  Py.strip_with p (Py.strip_with p s) = Py.strip_with p s.
Proof. apply strip_with_id; apply strip_with_clean. Qed.

End Stripping.

(** ** The lineup *)

Lemma pieces_clean (p : ascii -> bool) (l : list string) :
  Forall (fun x => x <> EmptyString /\ head_clean p x
                   /\ head_clean p (Py.rev x)) l ->
  head_clean p (foldr String.append EmptyString l)
  /\ head_clean p (Py.rev (foldr String.append EmptyString l)).
Proof.
  induction 1 as [|x l (Hne & Hh & Hr) _ (IHh & IHr)]; [now split|].
  cbn [foldr]. split; [now apply head_clean_append|].
  rewrite rev_append.
  destruct (decide (foldr String.append EmptyString l = EmptyString))
    as [-> | Hrest]; [exact Hr|].
  apply head_clean_append; [|exact IHr].
  intros E%rev_empty_inv. contradiction.
Qed.

(** The text of a tag, as [get_text(strip=True)] gives it, has no
    whitespace at either end. *)
Lemma get_text_strip_stripped (t : element) :
  Py.strip (get_text_strip t) = get_text_strip t.
Proof.
  unfold Py.strip, get_text_strip.
  destruct (pieces_clean Py.isspace
              (List.filter Py.truthy (map Py.strip (strings t)))) as [H1 H2].
  - apply Forall_forall. intros x [Hin Ht]%list_elem_of_In%filter_In.
    apply in_map_iff in Hin as (raw & <- & _).
    split; [now apply truthy_true|]. apply strip_with_clean.
  - now apply strip_with_id.
Qed.

Lemma structured_stage_artists (d : festival_data) (s : soup) :
  fd_artists (structured_stage d s) = fd_artists d.
Proof.
  unfold structured_stage. destruct (ld_json s) as [[[o|]|e]|]; try reflexivity.
  cbn [json_ld_stage].
  assert (E : forall a b x, fd_artists (structured_date a b x) = fd_artists x).
  { intros a b x. unfold structured_date.
    destruct (_ && _); [reflexivity|]. now destruct (Py.truthy a). }
  destruct (ld_location o) as [[[[locality region|]|]|]|]; cbn;
    now rewrite E.
Qed.

Lemma html_fallback_artists (d : festival_data) (s : soup) :
  fd_artists (html_fallback d s) = fd_artists d.
Proof.
  unfold html_fallback. destruct (_ || _); [|reflexivity].
  destruct (headerblock s) as [hb|]; [|reflexivity].
  now destruct (h1 hb), (p_tags hb !! 0%nat), (p_tags hb !! 1%nat).
Qed.

Lemma lineup_artists (d : festival_data) (s : soup) :
  fd_artists (lineup d s) =
  fd_artists d ++
    List.filter Py.truthy (map get_text_strip (default [] (hublineup s))).
Proof.
  unfold lineup. destruct (hublineup s) as [items|]; cbn [default from_option id].
  2:{ cbn. now rewrite app_nil_r. }
  revert d. induction items as [|li items IH]; intros d.
  - cbn. now rewrite app_nil_r.
  - cbn [foldl map List.filter].
    destruct (Py.truthy (get_text_strip li)); rewrite IH; [|reflexivity].
    cbn [append_artist fd_artists]. now rewrite <- app_assoc.
Qed.

(** The artists of a record are the texts of the list items of the lineup
    container, in document order, without the items whose text is empty
    once stripped; whatever the two stages did, no artist is empty and none
    has whitespace at either end.  Without a container there is no
    artist. *)
Theorem extract_artists (s : soup) :
  fd_artists (extract s) =
    List.filter Py.truthy (map get_text_strip (default [] (hublineup s)))
  /\ Forall (fun a => a <> EmptyString /\ Py.strip a = a)
            (fd_artists (extract s))
  /\ (hublineup s = None -> fd_artists (extract s) = []).
Proof.
  assert (E : fd_artists (extract s) =
    List.filter Py.truthy (map get_text_strip (default [] (hublineup s)))).
  { unfold extract.
    now rewrite lineup_artists, html_fallback_artists, structured_stage_artists. }
  rewrite E. split; [reflexivity|]. split.
  - apply Forall_forall. intros a [Hin Ht]%list_elem_of_In%filter_In.
    apply in_map_iff in Hin as (li & <- & _).
    split; [now apply truthy_true | apply get_text_strip_stripped].
  - now intros ->.
Qed.

Example padded_lineup_artists :
  fd_artists (extract padded_lineup) = ["Bicep(live)"; "Four Tet"].
Proof. reflexivity. Qed.

(** ** The location of the structured stage *)

Lemma strip_chars_fixed (chars x : string) :
  Py.strip_chars chars x = x ->
  head_clean (fun c => Py.mem_char c chars) x
  /\ head_clean (fun c => Py.mem_char c chars) (Py.rev x).
Proof.
  intros <-. apply strip_with_clean.
Qed.

Lemma json_ld_stage_location (d : festival_data) (o : event_object)
    (locality region : option string) :
  ld_location o = Some (LocDict (Some (AddrDict locality region))) ->
  fd_location (json_ld_stage d (Ok (JObject o))).1 =
  Py.strip_chars ", " (get_str locality +:+ ", " +:+ get_str region).
Proof. intros H. cbn [json_ld_stage]. now rewrite H. Qed.

(** When the block has an address object, the location is its locality and
    region joined by ", " with commas and spaces stripped at both ends: it
    never begins or ends with a comma or a space; it is empty when both
    parts are missing, the one part when the other is missing, and
    "locality, region" when both are there (the parts being free of commas
    and spaces at their ends). *)
Theorem structured_location (d : festival_data) (o : event_object)
    (locality region : option string) :
  ld_location o = Some (LocDict (Some (AddrDict locality region))) ->
  let l := get_str locality in
  let r := get_str region in
  let loc := fd_location (json_ld_stage d (Ok (JObject o))).1 in
  Py.strip_chars ", " loc = loc
  /\ (l = EmptyString -> r = EmptyString -> loc = EmptyString)
  /\ (Py.strip_chars ", " l = l -> r = EmptyString -> loc = l)
  /\ (Py.strip_chars ", " r = r -> l = EmptyString -> loc = r)
  /\ (Py.strip_chars ", " l = l -> Py.strip_chars ", " r = r ->
      l <> EmptyString -> r <> EmptyString -> loc = l +:+ ", " +:+ r).
Proof.
  intros H l r loc.
  assert (E : loc = Py.strip_chars ", " (l +:+ ", " +:+ r))
    by now apply json_ld_stage_location.
  rewrite E. unfold Py.strip_chars. split; [apply strip_with_idempotent|].
  split; [now intros -> ->|]. split; [|split].
  - intros [Hl Hl']%strip_chars_fixed ->.
    rewrite <- (append_empty_l (l +:+ ", " +:+ EmptyString)).
    now apply strip_with_core.
  - intros [Hr Hr']%strip_chars_fixed ->. rewrite append_empty_l.
    rewrite <- (append_empty_r r) at 1.
    now apply (strip_with_core _ ", " r EmptyString).
  - intros [Hl _]%strip_chars_fixed [_ Hr]%strip_chars_fixed Hnl Hnr.
    apply strip_with_id; [now apply head_clean_append|].
    rewrite !rev_append, append_assoc. apply head_clean_append; [|exact Hr].
    intros ?%rev_empty_inv. contradiction.
Qed.

Lemma structured_location_witness :
  fd_location (json_ld_stage empty_data (Ok (JObject locality_only))).1
  = "Austin".
Proof.
  refine (proj1 (proj2 (proj2
    (structured_location empty_data locality_only (Some "Austin") None
       eq_refl))) _ eq_refl).
  reflexivity.
Defined.

(** ** The page loop: requests, invariant, growth *)

Lemma range_from_1_length (bound : Z) :
  length (range_from_1 (bound + 1)) = Z.to_nat bound.
Proof.
  unfold range_from_1. rewrite length_map, length_seq.
  f_equal. lia.
Qed.

Lemma get_festival_links_eq (r : renderer) (base_url : string)
    (max_pages : option Z) (calls : nat) (m : bool) (s : soup) (total : Z) :
  r calls base_url = Rendered m s ->
  get_total_pages s = Ok total ->
  get_festival_links r base_url max_pages calls =
    (Ok (first_occurrences ∅
           (concat (map page_candidates
              (crawled r base_url (S calls)
                 (range_from_1 (page_bound max_pages total + 1)))))),
     (S calls + Z.to_nat (page_bound max_pages total))%nat).
Proof.
  intros Hr Ht. unfold get_festival_links. rewrite Hr, Ht.
  fold (page_bound max_pages total).
  rewrite foldl_scrape_page, foldl_merge_first, range_from_1_length.
  reflexivity.
Qed.

(** A crawl asks for the first page once to count the pages, then once for
    each page from 1 to the bound, the bound being the page count or the
    cap when that is smaller: never more pages than were counted, none at
    all when the bound is below 1, and then no link. *)
Theorem crawl_requests (r : renderer) (base_url : string)
    (max_pages : option Z) (calls : nat) (m : bool) (s : soup) (total : Z) :
  r calls base_url = Rendered m s ->
  get_total_pages s = Ok total ->
  let bound := page_bound max_pages total in
  exists links,
    get_festival_links r base_url max_pages calls =
      (Ok links, (S calls + Z.to_nat bound)%nat)
    /\ bound <= total
    /\ (max_pages = None -> bound = total)
    /\ (forall cap, max_pages = Some cap -> bound = Z.min cap total)
    /\ (bound <= 0 -> links = []).
Proof.
  intros Hr Ht bound. eexists. split.
  - apply (get_festival_links_eq r base_url max_pages calls m s total Hr Ht).
  - fold bound. split; [|split; [|split]].
    + unfold bound, page_bound. destruct max_pages as [cap|]; [|lia].
      destruct (cap >? total) eqn:E; lia.
    + now intros ->.
    + intros cap ->. unfold bound, page_bound.
      destruct (cap >? total) eqn:E; lia.
    + intros Hb. replace (range_from_1 (bound + 1)) with (@nil Z);
        [reflexivity|].
      unfold range_from_1. replace (Z.to_nat (bound + 1 - 1)) with 0%nat by lia.
      reflexivity.
Qed.

Lemma crawl_requests_witness :
  exists links,
    get_festival_links two_pages main_url (Some 5) 0 = (Ok links, 3%nat).
Proof.
  destruct (crawl_requests two_pages main_url (Some 5) 0 true first_listing 2
              eq_refl eq_refl) as (links & H & _).
  exists links. exact H.
Defined.

Lemma merge_keeps (st : crawl_state) (e : festival_link) :
  seen_matches st -> NoDup (map url (all_festivals st)) ->
  seen_matches (merge st e) /\ NoDup (map url (all_festivals (merge st e))).
Proof.
  intros Hinv Hnd. unfold merge. case_bool_decide as Hin; [easy|].
  unfold seen_matches in *. cbn [all_festivals seen_urls]. split.
  - intros u. rewrite elem_of_union, elem_of_singleton, map_app, elem_of_app.
    cbn [map]. rewrite list_elem_of_singleton, (Hinv u). tauto.
  - rewrite map_app. cbn [map]. apply NoDup_app. split; [exact Hnd|].
    split; [|apply NoDup_singleton].
    intros u Hu ->%list_elem_of_singleton. apply Hin. now apply Hinv.
Qed.

Lemma foldl_merge_keeps (l : list festival_link) (st : crawl_state) :
  seen_matches st -> NoDup (map url (all_festivals st)) ->
  seen_matches (foldl merge st l)
  /\ NoDup (map url (all_festivals (foldl merge st l))).
Proof.
  revert st. induction l as [|e l IH]; intros st Hinv Hnd; [easy|].
  cbn [foldl]. destruct (merge_keeps st e Hinv Hnd). now apply IH.
Qed.

(** At every point of the page loop the set of seen addresses is exactly
    the set of the addresses of the links collected so far, and no address
    has been collected twice. *)
Theorem crawl_state_invariant (r : renderer) (base_url : string)
    (calls : nat) (pages : list Z) :
  let st := (foldl (scrape_page r base_url) (initial_state, calls) pages).1 in
  seen_matches st /\ NoDup (map url (all_festivals st)).
Proof.
  rewrite foldl_scrape_page. cbn [fst]. apply foldl_merge_keeps.
  - intros u. cbn. split; intros H; [now apply not_elem_of_empty in H|].
    inversion H.
  - constructor.
Qed.

Lemma scrape_page_merge (r : renderer) (base_url : string)
    (st : crawl_state) (calls : nat) (page : Z) :
  exists l, (scrape_page r base_url (st, calls) page).1 = foldl merge st l.
Proof.
  unfold scrape_page.
  destruct (r calls (page_url base_url page)) as [e|[|] s];
    try (now exists []).
  exists (page_candidates s). cbn [fst]. now rewrite collect_page.
Qed.

Lemma foldl_merge_seen (l : list festival_link) (st : crawl_state) :
  seen_urls st ⊆ seen_urls (foldl merge st l)
  /\ forall e, e ∈ l -> url e ∈ seen_urls (foldl merge st l).
Proof.
  revert st. induction l as [|e l IH]; intros st.
  - split; [done|]. intros e H. inversion H.
  - cbn [foldl]. destruct (IH (merge st e)) as [Hsub Hall].
    assert (Hm : seen_urls st ⊆ seen_urls (merge st e)
                 /\ url e ∈ seen_urls (merge st e)).
    { unfold merge. case_bool_decide as Hin; [easy|]. cbn [seen_urls].
      split; [apply union_subseteq_r|].
      apply elem_of_union. left. now apply elem_of_singleton. }
    destruct Hm as [Hm1 Hm2]. split; [now transitivity (seen_urls (merge st e))|].
    intros x [-> | Hx]%elem_of_cons; [now apply Hsub | now apply Hall].
Qed.

(** A page only adds to the state: the links collected before it are
    still there, in the same order, in front of the new ones, and no seen
    address is forgotten. *)
Theorem scrape_page_grows (r : renderer) (base_url : string)
    (st : crawl_state) (calls : nat) (page : Z) :
  let st' := (scrape_page r base_url (st, calls) page).1 in
  all_festivals st `prefix_of` all_festivals st'
  /\ seen_urls st ⊆ seen_urls st'
  /\ (scrape_page r base_url (st, calls) page).2 = S calls.
Proof.
  cbv zeta. split; [|split].
  - destruct (scrape_page_merge r base_url st calls page) as (l & ->).
    rewrite foldl_merge_first. now eexists.
  - destruct (scrape_page_merge r base_url st calls page) as (l & ->).
    apply foldl_merge_seen.
  - unfold scrape_page.
    now destruct (r calls (page_url base_url page)) as [e|[|] s].
Qed.

Lemma foldl_merge_noop (l : list festival_link) (st : crawl_state) :
  (forall e, e ∈ l -> url e ∈ seen_urls st) -> foldl merge st l = st.
Proof.
  induction l as [|e l IH]; intros H; [reflexivity|].
  cbn [foldl]. unfold merge at 2.
  rewrite bool_decide_eq_true_2 by (apply H; left).
  apply IH. intros x Hx. apply H. now right.
Qed.

(** Going through the anchors of a document a second time changes
    nothing: every address met is already seen. *)
Theorem collect_links_idempotent (st : crawl_state) (s : soup) :
  let st1 := (collect_links st (find_festival_links s)).1 in
  collect_links st1 (find_festival_links s) = (st1, Ok tt).
Proof.
  cbv zeta. rewrite !collect_page. cbn [fst]. f_equal.
  apply foldl_merge_noop. apply foldl_merge_seen.
Qed.

(** ** The addresses collected are those of detail pages *)

Lemma string_length_append (a b : string) :
  String.length (a +:+ b) = (String.length a + String.length b)%nat.
Proof.
  induction a as [|c a IH]; [reflexivity|].
  rewrite append_cons. cbn [String.length]. now rewrite IH.
Qed.

Lemma rev_length (s : string) : String.length (Py.rev s) = String.length s.
Proof.
  induction s as [|c s IH]; [reflexivity|].
  rewrite rev_cons, string_length_append, IH. cbn [String.length]. lia.
Qed.

Lemma startswith_append (p s x : string) :
  (String.length p <= String.length s)%nat ->
  Py.startswith p (s +:+ x) = Py.startswith p s.
Proof.
  revert s. induction p as [|a p IH]; intros s Hlen; [reflexivity|].
  destruct s as [|b s]; [cbn in Hlen; lia|].
  rewrite append_cons. cbn [Py.startswith]. f_equal.
  apply IH. cbn [String.length] in Hlen. lia.
Qed.

Lemma endswith_append (p a s : string) :
  (String.length p <= String.length s)%nat ->
  Py.endswith p (a +:+ s) = Py.endswith p s.
Proof.
  intros Hlen. unfold Py.endswith. rewrite rev_append.
  apply startswith_append. now rewrite !rev_length.
Qed.

Lemma contains_length (p s : string) :
  Py.contains p s = true -> (String.length p <= String.length s)%nat.
Proof.
  intros (a & b & ->)%contains_spec. rewrite !string_length_append. lia.
Qed.

Lemma endswith_resolve (h : string) :
  Py.contains "/festivals/" h = true ->
  Py.endswith "/festivals/" (resolve h) = Py.endswith "/festivals/" h.
Proof.
  intros Hc. rewrite resolve_eq. destruct (Py.startswith "/" h); [|reflexivity].
  now apply endswith_append, contains_length.
Qed.

Lemma candidate_kept (a : anchor) (e : festival_link) :
  is_festival_href (href a) = true -> candidate a = Some e ->
  Py.contains "/festivals/" (url e) = true
  /\ Py.endswith "/festivals/" (url e) = false.
Proof.
  intros (h & Hh & Hne & Hc)%festival_href_inv Hcand.
  destruct (Py.endswith "/festivals/" h) eqn:He.
  - rewrite (candidate_none a h Hh He) in Hcand. discriminate.
  - destruct (candidate_some a h Hh Hc Hne He) as (n & _ & E).
    rewrite E in Hcand. inversion Hcand. cbn [url].
    split; [now apply resolve_contains | now rewrite endswith_resolve].
Qed.

(** Every address a crawl returns holds the detail-page segment
    "/festivals/" and does not end with it: the listing root is never
    among the links, however it was written on the page. *)
Theorem links_are_detail_pages (r : renderer) (base_url : string)
    (max_pages : option Z) (calls calls' : nat) (links : list festival_link) :
  get_festival_links r base_url max_pages calls = (Ok links, calls') ->
  forall e, e ∈ links ->
    Py.contains "/festivals/" (url e) = true
    /\ Py.endswith "/festivals/" (url e) = false.
Proof.
  intros ->%get_festival_links_ok e He.
  pose proof (elem_of_sublist _ _ _ He (first_occurrences_sublist _ _)) as Hc.
  apply crawl_candidate_source in Hc as (a & Ha & Hcand).
  now apply (candidate_kept a).
Qed.

Lemma links_are_detail_pages_witness :
  Forall (fun e => Py.contains "/festivals/" (url e) = true
                   /\ Py.endswith "/festivals/" (url e) = false)
         two_pages_links.
Proof.
  apply Forall_forall.
  apply (links_are_detail_pages two_pages main_url None 0 3).
  vm_compute. reflexivity.
Defined.

(** ** The detail loop, the export and the summary *)

Lemma scrape_festival_details_calls (r : renderer) (u : string) (calls : nat) :
  (scrape_festival_details r u calls).2 = S calls.
Proof. unfold scrape_festival_details. now destruct (r calls u). Qed.

Lemma scrape_all_from (r : renderer) (links : list festival_link)
    (acc : list festival_data) (calls : nat) :
  foldl (fun '(all_data, calls) fest =>
           let '(data, calls') := scrape_festival_details r (url fest) calls in
           if Py.truthy (fd_name data) then (all_data ++ [data], calls')
           else (all_data, calls'))
        (acc, calls) links =
  (acc ++ List.filter (fun d => Py.truthy (fd_name d))
            (detail_results r links calls),
   (calls + length links)%nat).
Proof.
  revert acc calls. induction links as [|fest links IH]; intros acc calls.
  - cbn. now rewrite app_nil_r, Nat.add_0_r.
  - cbn [foldl detail_results List.filter length].
    pose proof (scrape_festival_details_calls r (url fest) calls) as Hc.
    destruct (scrape_festival_details r (url fest) calls) as [data calls'].
    cbn [fst snd] in *. subst calls'.
    destruct (Py.truthy (fd_name data)); rewrite IH, ?Nat.add_succ_r;
      [now rewrite <- app_assoc | reflexivity].
Qed.

Lemma detail_results_failed (r : renderer) (links : list festival_link)
    (calls : nat) :
  (forall i fest, links !! i = Some fest ->
     exists e, r (calls + i)%nat (url fest) = FetchError e) ->
  Forall (fun d => d = empty_data) (detail_results r links calls).
Proof.
  revert calls. induction links as [|fest links IH]; intros calls H;
    [constructor|].
  cbn [detail_results]. constructor.
  - destruct (H 0%nat fest eq_refl) as (e & He). rewrite Nat.add_0_r in He.
    unfold scrape_festival_details. now rewrite He.
  - apply IH. intros i x Hi. destruct (H (S i) x Hi) as (e & He).
    exists e. now rewrite Nat.add_succ_comm.
Qed.

Lemma scrape_all_eq (r : renderer) (links : list festival_link) (calls : nat) :
  scrape_all r links calls =
    (List.filter (fun d => Py.truthy (fd_name d)) (detail_results r links calls),
     (calls + length links)%nat).
Proof. unfold scrape_all. now rewrite scrape_all_from. Qed.

Lemma detail_results_length (r : renderer) (links : list festival_link)
    (calls : nat) :
  length (detail_results r links calls) = length links.
Proof.
  revert calls. induction links as [|fest links IH]; intros calls;
    [reflexivity|].
  cbn [detail_results length]. now rewrite IH.
Qed.

Lemma scrape_all_named (r : renderer) (links : list festival_link)
    (calls : nat) :
  Forall (fun d => fd_name d <> EmptyString) (scrape_all r links calls).1
  /\ (length (scrape_all r links calls).1 <= length links)%nat.
Proof.
  rewrite scrape_all_eq. cbn [fst]. split.
  - apply Forall_forall. intros d [_ Hd]%list_elem_of_In%filter_In.
    now apply truthy_true.
  - rewrite <- (detail_results_length r links calls). apply filter_length_le.
Qed.

(** The detail loop asks once for each link, in link order, and retains the
    records that have a name, in that order: never more records than
    links, none without a name, and none at all when every request
    fails. *)
Theorem scrape_all_retains (r : renderer) (links : list festival_link)
    (calls : nat) :
  let all_data := (scrape_all r links calls).1 in
  scrape_all r links calls =
    (List.filter (fun d => Py.truthy (fd_name d)) (detail_results r links calls),
     (calls + length links)%nat)
  /\ Forall (fun d => fd_name d <> EmptyString) all_data
  /\ (length all_data <= length links)%nat
  /\ ((forall i fest, links !! i = Some fest ->
         exists e, r (calls + i)%nat (url fest) = FetchError e) ->
      all_data = []).
Proof.
  cbv zeta. destruct (scrape_all_named r links calls) as [Hn Hl].
  split; [apply scrape_all_eq|]. split; [exact Hn|]. split; [exact Hl|].
  intros H%detail_results_failed. rewrite scrape_all_eq. cbn [fst].
  induction H as [|d l -> _ IH]; [reflexivity|]. exact IH.
Qed.

(** A file that [main] writes starts with the header row, every row has the
    four columns, every row after the header has a non-empty Festival
    column, and there are no more such rows than links were collected. *)
Theorem export_shape (r : renderer) (file : list csv_row) :
  main r = Exported file ->
  head file = Some fieldnames
  /\ Forall (fun row => length row = 4%nat) file
  /\ Forall (fun row => exists festival rest,
                          row = festival :: rest /\ festival <> EmptyString)
            (read_rows file)
  /\ exists links calls,
       get_festival_links r main_url None 0 = (Ok links, calls)
       /\ links <> []
       /\ (length (read_rows file) <= length links)%nat.
Proof.
  unfold main.
  destruct (get_festival_links r main_url None 0) as [[links|e] calls] eqn:E;
    [|discriminate].
  destruct links as [|fest links]; [discriminate|].
  intros [= <-].
  destruct (scrape_all_named r (fest :: links) calls) as (Hn & Hl).
  set (all_data := (scrape_all r (fest :: links) calls).1) in *.
  split; [reflexivity|]. split; [|split].
  - unfold save_to_csv. constructor; [reflexivity|].
    apply Forall_forall. intros row (d & -> & _)%list_elem_of_fmap.
    reflexivity.
  - rewrite read_rows_save. apply Forall_forall.
    intros row (d & -> & Hd)%list_elem_of_fmap.
    rewrite Forall_forall in Hn. unfold row_of. eauto.
  - exists (fest :: links), calls. split; [reflexivity|]. split; [easy|].
    now rewrite read_rows_save, length_map.
Qed.

Lemma export_shape_witness :
  Forall (fun row => length row = 4%nat)
    [ ["Festival"; "Date"; "Location"; "Artists"];
      ["Test Fest"; "2026-06-01 - 2026-06-03"; "Austin, TX"; ""];
      ["TEST FEST 2026 | Tickets"; ""; ""; ""] ].
Proof.
  refine (proj1 (proj2 (export_shape whole_run _ _))).
  vm_compute. reflexivity.
Defined.

(** The counts of the summary: the festivals with a lineup are no more than
    the festivals, and no more than the artists; there is no artist
    exactly when no festival has a lineup. *)
Theorem summary_counts (all_data : list festival_data) :
  let sm := summarize all_data in
  (with_lineups sm <= total_scraped sm)%nat
  /\ (with_lineups sm <= total_artists sm)%nat
  /\ (total_artists sm = 0%nat <-> with_lineups sm = 0%nat).
Proof.
  cbv zeta. unfold summarize. cbn [total_scraped with_lineups total_artists].
  split; [apply filter_length_le|].
  induction all_data as [|f l [IH1 IH2]]; [easy|].
  cbn [map List.filter].
  change (sum_list (?x :: ?t)) with (x + sum_list t)%nat.
  assert (Hf : has_artists f = false /\ length (fd_artists f) = 0%nat
               \/ has_artists f = true /\ (0 < length (fd_artists f))%nat).
  { unfold has_artists. destruct (fd_artists f); cbn [length];
      [left | right]; split; auto; lia. }
  destruct Hf as [[-> Hz] | [-> Hp]]; cbn [length]; lia.
Qed.

(** ** A detail page without usable structured data *)

(** When there is no structured-data block, or it does not parse, or it is
    not an object, the record comes from the header block alone: the name
    is the text of its first heading, the date that of its first paragraph,
    the location that of its second paragraph, each empty when the element
    (or the whole block) is missing. *)
Theorem extract_from_header (s : soup) :
  (ld_json s = None \/ ld_json s = Some (Ok JOther)
   \/ exists e, ld_json s = Some (Raise e)) ->
  fd_name (extract s) =
    match headerblock s with
    | Some hb => match h1 hb with
                 | Some h => get_text_strip h
                 | None => EmptyString
                 end
    | None => EmptyString
    end
  /\ fd_date (extract s) =
    match headerblock s with
    | Some hb => match p_tags hb !! 0%nat with
                 | Some p => get_text_strip p
                 | None => EmptyString
                 end
    | None => EmptyString
    end
  /\ fd_location (extract s) =
    match headerblock s with
    | Some hb => match p_tags hb !! 1%nat with
                 | Some p => get_text_strip p
                 | None => EmptyString
                 end
    | None => EmptyString
    end.
Proof.
  intros H.
  assert (E : structured_stage empty_data s = empty_data).
  { unfold structured_stage.
    destruct H as [-> | [-> | (e & ->)]]; reflexivity. }
  unfold extract. rewrite E.
  destruct (lineup_keeps (html_fallback empty_data s) s) as (-> & -> & ->).
  destruct (headerblock s) as [hb|] eqn:Hhb.
  - destruct (html_fallback_runs empty_data s hb (or_introl eq_refl) Hhb)
      as (-> & -> & ->).
    now destruct (h1 hb), (p_tags hb !! 0%nat), (p_tags hb !! 1%nat).
  - now rewrite html_fallback_no_header.
Qed.

Lemma extract_from_header_witness :
  fd_name (extract header_only) = "Sonar"
  /\ fd_date (extract header_only) = "June 18-20, 2026"
  /\ fd_location (extract header_only) = "Barcelona, Spain".
Proof.
  exact (extract_from_header header_only (or_introl eq_refl)).
Defined.

(** ** The cap on the number of pages *)

Lemma get_festival_links_fold (r : renderer) (base_url : string)
    (max_pages : option Z) (calls : nat) (m : bool) (s : soup) (total : Z) :
  r calls base_url = Rendered m s ->
  get_total_pages s = Ok total ->
  (get_festival_links r base_url max_pages calls).1 =
    Ok (all_festivals
          (foldl (scrape_page r base_url) (initial_state, S calls)
             (range_from_1 (page_bound max_pages total + 1))).1).
Proof.
  intros Hr Ht. unfold get_festival_links. rewrite Hr, Ht.
  fold (page_bound max_pages total). now destruct (foldl _ _ _).
Qed.

Lemma scrape_pages_prefix (r : renderer) (base_url : string)
    (pages : list Z) (st : crawl_state) (calls : nat) :
  all_festivals st `prefix_of`
  all_festivals (foldl (scrape_page r base_url) (st, calls) pages).1.
Proof.
  rewrite foldl_scrape_page. cbn [fst]. rewrite foldl_merge_first.
  now eexists.
Qed.

Lemma range_from_1_split (b1 b2 : Z) :
  b1 <= b2 ->
  exists rest, range_from_1 (b2 + 1) = range_from_1 (b1 + 1) ++ rest.
Proof.
  intros H. unfold range_from_1.
  replace (Z.to_nat (b2 + 1 - 1))
    with (Z.to_nat (b1 + 1 - 1) + (Z.to_nat b2 - Z.to_nat b1))%nat by lia.
  rewrite seq_app, map_app. now eexists.
Qed.

(** A cap at or above the page count changes nothing, and raising the cap
    only adds links after those already found: the links of the crawl with
    the smaller cap are the first links of the crawl with the larger one. *)
Theorem cap_only_truncates (r : renderer) (base_url : string) (calls : nat)
    (m : bool) (s : soup) (total cap1 cap2 : Z)
    (links1 links2 : list festival_link) :
  r calls base_url = Rendered m s ->
  get_total_pages s = Ok total ->
  cap1 <= cap2 ->
  (get_festival_links r base_url (Some cap1) calls).1 = Ok links1 ->
  (get_festival_links r base_url (Some cap2) calls).1 = Ok links2 ->
  links1 `prefix_of` links2
  /\ (total <= cap1 ->
      get_festival_links r base_url (Some cap1) calls =
      get_festival_links r base_url None calls).
Proof.
  intros Hr Ht Hcap H1 H2. split.
  - rewrite (get_festival_links_fold r base_url _ calls m s total Hr Ht) in H1.
    rewrite (get_festival_links_fold r base_url _ calls m s total Hr Ht) in H2.
    injection H1 as <-. injection H2 as <-.
    change (if cap1 >? total then total else cap1)
      with (page_bound (Some cap1) total).
    change (if cap2 >? total then total else cap2)
      with (page_bound (Some cap2) total).
    destruct (range_from_1_split (page_bound (Some cap1) total)
                (page_bound (Some cap2) total)) as (rest & ->).
    + unfold page_bound.
      destruct (cap1 >? total) eqn:E1, (cap2 >? total) eqn:E2; lia.
    + rewrite foldl_app.
      destruct (foldl (scrape_page r base_url) (initial_state, S calls)
                  (range_from_1 (page_bound (Some cap1) total + 1)))
        as [st c].
      apply scrape_pages_prefix.
  - intros Hle.
    rewrite !(get_festival_links_eq r base_url _ calls m s total Hr Ht).
    replace (page_bound (Some cap1) total) with (page_bound None total);
      [reflexivity|].
    unfold page_bound. destruct (cap1 >? total) eqn:E; lia.
Qed.

Lemma cap_only_truncates_witness :
  [ {| name := "Coachella";
       url := "https://www.musicfestivalwizard.com/festivals/coachella/" |};
    {| name := "Big Day Out";
       url := "https://www.musicfestivalwizard.com/festivals/big-day-out/" |} ]
  `prefix_of` two_pages_links.
Proof.
  refine (proj1 (cap_only_truncates two_pages main_url 0 true first_listing
                   2 1 2 _ _ eq_refl eq_refl _ _ _)).
  - lia.
  - vm_compute. reflexivity.
  - vm_compute. reflexivity.
Defined.

(** ** A label made from the address *)

Lemma case_not_hyphen (c : ascii) :
  c <> "-"%char -> Py.upper c <> "-"%char /\ Py.lower c <> "-"%char.
Proof.
  intros Hc. split; intros E; revert Hc E;
    destruct c as [[] [] [] [] [] [] [] []]; vm_compute; intros Hc E;
    first [discriminate E | now apply Hc].
Qed.

Lemma contains_hyphen_cons (c : ascii) (s : string) :
  Py.contains "-" (String c s) = Py.ascii_eqb "-" c || Py.contains "-" s.
Proof. cbn [Py.contains Py.startswith]. now rewrite andb_true_r. Qed.

Lemma title_go_no_hyphen (s : string) (b : bool) :
  Py.contains "-" s = false -> Py.contains "-" (Py.title_go b s) = false.
Proof.
  revert b. induction s as [|c s IH]; intros b; [easy|].
  rewrite contains_hyphen_cons. intros [Hc Hs]%orb_false_elim.
  assert (Hne : c <> "-"%char).
  { intros ->. unfold Py.ascii_eqb in Hc.
    now rewrite bool_decide_eq_true_2 in Hc. }
  destruct (case_not_hyphen c Hne) as [Hu Hl].
  assert (Hk : forall x, x <> "-"%char -> Py.ascii_eqb "-" x = false).
  { intros x Hx. apply bool_decide_eq_false_2. congruence. }
  cbn [Py.title_go].
  destruct (Py.islower c); [|destruct (Py.isupper c)];
    rewrite contains_hyphen_cons, IH by exact Hs;
    destruct b; now rewrite Hk.
Qed.

Lemma replace_hyphen_none (s : string) :
  Py.contains "-" (Py.replace_char "-" " " s) = false.
Proof.
  induction s as [|c s IH]; [reflexivity|].
  cbn [Py.replace_char]. rewrite contains_hyphen_cons, IH, orb_false_r.
  unfold Py.ascii_eqb at 2. case_bool_decide as Hc; [reflexivity|].
  apply bool_decide_eq_false_2. congruence.
Qed.

Lemma title_go_length (s : string) (b : bool) :
  String.length (Py.title_go b s) = String.length s.
Proof.
  revert b. induction s as [|c s IH]; intros b; [reflexivity|].
  cbn [Py.title_go].
  destruct (Py.islower c); [|destruct (Py.isupper c)];
    cbn [String.length]; now rewrite IH.
Qed.

Lemma replace_char_length (a b : ascii) (s : string) :
  String.length (Py.replace_char a b s) = String.length s.
Proof.
  induction s as [|c s IH]; [reflexivity|].
  cbn [Py.replace_char String.length]. now rewrite IH.
Qed.

(** When the anchor text is too short to be the name and the piece of the
    address the name is made from is ASCII text, the name has no hyphen
    left and is as long as that piece. *)
Theorem derived_name_shape (a : anchor) (h n segment : string) :
  (String.length (get_text_strip (a_tag a)) < 3)%nat ->
  Py.index_neg2 (Py.split "/" h) = Ok segment ->
  isascii segment = true ->
  link_name a h = Ok n ->
  Py.contains "-" n = false
  /\ String.length n = String.length segment.
Proof.
  intros Hlt%Nat.ltb_lt Hseg _. unfold link_name.
  rewrite Hlt, orb_true_r, Hseg. intros [= <-]. split.
  - apply title_go_no_hyphen, replace_hyphen_none.
  - unfold Py.title. now rewrite title_go_length, replace_char_length.
Qed.

Lemma derived_name_shape_witness :
  Py.contains "-" "Big Day Out" = false
  /\ String.length "Big Day Out" = String.length "big-day-out".
Proof.
  refine (derived_name_shape (link_to "/festivals/big-day-out/" "")
            (resolve "/festivals/big-day-out/") "Big Day Out" "big-day-out"
            _ eq_refl eq_refl eq_refl).
  cbn. lia.
Defined.
